(** * Orion optimizer: pattern classification, analyzers and report synthesis

    A shallow embedding of [tools/optimize.py] (class [OrionOptimizer]) and
    proofs about its line classifier, its ELF section analyzer, its hotspot
    analyzer and the verdict and headline counts of its report.

    - Text is the Standard Library's [string]; a character is a code point
      in 0..255 (Latin-1), classified the way Python classifies that code
      point ([str.isspace], and the [re] classes [\s], [\w], [\d] on [str]
      patterns).
    - The rule tables hold the patterns as the source writes them. [Re]
      reads a pattern into a syntax tree and runs a backtracking matcher on
      it, for the fragment of [re] that the optimizer's patterns use.
    - The methods run in a state monad with exceptions. The state is the
      optimizer's report, the wall clock that [log] reads and what was
      printed. The blocks of the final report are kept as the values they
      show, not as text.
    - The file system and [objdump] are collaborators, given as an [Env]. *)

From Stdlib Require Import List Bool Arith ZArith Lia Ascii String.
From Stdlib Require Import DecimalString.
Import ListNotations.

Local Open Scope string_scope.
Local Open Scope list_scope.
Local Open Scope nat_scope.

(** String concatenation, Python's [+] on [str]. *)
Infix "+++" := String.append (right associativity, at level 60).

(** ** Characters *)

Module Char.

Definition code (c : ascii) : nat := nat_of_ascii c.

Definition between (lo hi : nat) (c : ascii) : bool :=
  (lo <=? code c) && (code c <=? hi).

(** [str.isspace] on one character, which is also what [\s] accepts:
    TAB..CR, FS..US, space, NEL and NBSP. *)
Definition isspace (c : ascii) : bool :=
  between 9 13 c || between 28 32 c || (code c =? 133) || (code c =? 160).

(** [\d]: the decimal digits (category Nd); below 256 only 0..9. *)
Definition isdigit (c : ascii) : bool := between 48 57 c.

(** Latin-1 letters and numeric characters above 127 that
    [str.isalnum] accepts. *)
Definition latin1_alnum (c : ascii) : bool :=
  (code c =? 170) || (code c =? 178) || (code c =? 179) || (code c =? 181)
  || (code c =? 185) || (code c =? 186) || between 188 190 c
  || between 192 214 c || between 216 246 c || between 248 255 c.

(** [\w]: [str.isalnum] or underscore. *)
Definition isword (c : ascii) : bool :=
  between 48 57 c || between 65 90 c || between 97 122 c || (code c =? 95)
  || latin1_alnum c.

Definition newline : ascii := ascii_of_nat 10.
Definition dquote : ascii := ascii_of_nat 34.
Definition backslash : ascii := ascii_of_nat 92.

End Char.

(** ** Strings: the [str] methods the optimizer calls *)

Module Str.

Fixpoint lstrip (s : string) : string :=
  match s with
  | String c t => if Char.isspace c then lstrip t else s
  | EmptyString => EmptyString
  end.

(** Drop the whitespace at the end: a character is kept when it is not
    whitespace or when something is left after it. *)
Fixpoint rstrip (s : string) : string :=
  match s with
  | EmptyString => EmptyString
  | String c t =>
      match rstrip t with
      | EmptyString => if Char.isspace c then EmptyString else String c EmptyString
      | t' => String c t'
      end
  end.

(** [s.strip()] *)
Definition strip (s : string) : string := rstrip (lstrip s).

(** [s.split(sep)] for a one-character separator: the pieces between the
    separators, empty pieces kept, never an empty list. *)
Fixpoint split_on (sep : ascii) (s : string) : list string :=
  match s with
  | EmptyString => [EmptyString]
  | String c t =>
      if Ascii.eqb c sep then EmptyString :: split_on sep t
      else match split_on sep t with
           | w :: ws => String c w :: ws
           | [] => [String c EmptyString]
           end
  end.

(** [s.split()]: the maximal runs of non-whitespace characters. *)
Fixpoint split_ws_aux (cur : option string) (s : string) : list string :=
  match s with
  | EmptyString => match cur with Some w => [w] | None => [] end
  | String c t =>
      if Char.isspace c then
        match cur with
        | Some w => w :: split_ws_aux None t
        | None => split_ws_aux None t
        end
      else
        match cur with
        | Some w => split_ws_aux (Some (w +++ String c EmptyString)) t
        | None => split_ws_aux (Some (String c EmptyString)) t
        end
  end.

Definition split_ws (s : string) : list string := split_ws_aux None s.

(** [needle in hay] *)
Fixpoint contains (needle hay : string) : bool :=
  String.prefix needle hay
  || match hay with
     | EmptyString => false
     | String _ t => contains needle t
     end.

(** [s[:n]] *)
Fixpoint take (n : nat) (s : string) : string :=
  match n, s with
  | S n', String c t => String c (take n' t)
  | _, _ => EmptyString
  end.

(** [str(n)] for a non-negative integer *)
Definition of_N (n : N) : string := NilZero.string_of_uint (N.to_uint n).

(** [str(z)] *)
Definition of_Z (z : Z) : string :=
  match z with
  | Zneg p => "-" +++ of_N (Npos p)
  | _ => of_N (Z.to_N z)
  end.

End Str.

(** ** Regular expressions: the fragment of [re] the rule tables use *)

Module Re.

(** One item of a bracketed class. *)
Inductive item : Type :=
| One (c : ascii)            (* a literal character *)
| Range (lo hi : ascii)      (* lo-hi *)
| Space                      (* \s *)
| Word                       (* \w *)
| Digit.                     (* \d *)

Definition item_has (i : item) (c : ascii) : bool :=
  match i with
  | One a => Ascii.eqb a c
  | Range lo hi => Char.between (Char.code lo) (Char.code hi) c
  | Space => Char.isspace c
  | Word => Char.isword c
  | Digit => Char.isdigit c
  end.

Inductive regex : Type :=
| Lit (s : string)           (* literal characters, in sequence *)
| Dot                        (* .   any character but a newline *)
| In (items : list item)     (* [...] , and \s \w \d outside brackets *)
| NotIn (items : list item)  (* [^...] *)
| Bol                        (* ^ *)
| Eol                        (* $ *)
| Boundary                   (* \b *)
| NotAhead (r : regex)       (* (?!r) *)
| Cat (r1 r2 : regex)        (* r1r2 *)
| Alt (r1 r2 : regex)        (* r1|r2 *)
| Star (r : regex)           (* r*   greedy *)
| Plus (r : regex).          (* r+   greedy *)

(** Strip [lit] from the front of [s]; the last character passed over is
    returned with the rest. *)
Fixpoint eat (lit : string) (p : option ascii) (s : string)
  : option (option ascii * string) :=
  match lit with
  | EmptyString => Some (p, s)
  | String a lit' =>
      match s with
      | String c t => if Ascii.eqb a c then eat lit' (Some c) t else None
      | EmptyString => None
      end
  end.

Definition word_before (p : option ascii) : bool :=
  match p with Some c => Char.isword c | None => false end.

Definition word_after (s : string) : bool :=
  match s with String c _ => Char.isword c | EmptyString => false end.

(** [$] without MULTILINE: the end, or just before a final newline. *)
Definition at_end (s : string) : bool :=
  match s with
  | EmptyString => true
  | String c EmptyString => Ascii.eqb c Char.newline
  | _ => false
  end.

(** The backtracking matcher, in continuation-passing style. A position is
    the character just before it ([None] at the start of the text) and the
    text from it on. [run r k p s] tries the ways [r] can match at the
    position in the order [re] tries them (left alternative first, longest
    repetition first) and returns the first answer the continuation [k]
    accepts. An iteration of a repetition has to consume a character, so
    the repetition is bounded by the length of the text that is left. *)
Fixpoint run {A : Type} (r : regex) (k : option ascii -> string -> option A)
         (p : option ascii) (s : string) {struct r} : option A :=
  match r with
  | Lit l =>
      match eat l p s with
      | Some (p', s') => k p' s'
      | None => None
      end
  | Dot =>
      match s with
      | String c t => if Ascii.eqb c Char.newline then None else k (Some c) t
      | EmptyString => None
      end
  | In items =>
      match s with
      | String c t =>
          if existsb (fun i => item_has i c) items then k (Some c) t else None
      | EmptyString => None
      end
  | NotIn items =>
      match s with
      | String c t =>
          if existsb (fun i => item_has i c) items then None else k (Some c) t
      | EmptyString => None
      end
  | Bol => match p with None => k p s | Some _ => None end
  | Eol => if at_end s then k p s else None
  | Boundary =>
      if xorb (word_before p) (word_after s) then k p s else None
  | NotAhead r1 =>
      match run r1 (fun _ _ => Some tt) p s with
      | Some _ => None
      | None => k p s
      end
  | Cat r1 r2 => run r1 (run r2 k) p s
  | Alt r1 r2 =>
      match run r1 k p s with
      | Some a => Some a
      | None => run r2 k p s
      end
  | Star r1 =>
      (fix loop (n : nat) (p0 : option ascii) (s0 : string) {struct n}
         : option A :=
         match n with
         | O => k p0 s0
         | S n' =>
             match run r1 (fun p' s' =>
                             if String.length s' <? String.length s0
                             then loop n' p' s' else None) p0 s0 with
             | Some a => Some a
             | None => k p0 s0
             end
         end) (String.length s) p s
  | Plus r1 =>
      run r1
        (fun p1 s1 =>
           (fix loop (n : nat) (p0 : option ascii) (s0 : string) {struct n}
              : option A :=
              match n with
              | O => k p0 s0
              | S n' =>
                  match run r1 (fun p' s' =>
                                  if String.length s' <? String.length s0
                                  then loop n' p' s' else None) p0 s0 with
                  | Some a => Some a
                  | None => k p0 s0
                  end
              end) (String.length s1) p1 s1) p s
  end.

(** The match that starts exactly at the position, as the number of
    characters it spans; with [nonempty], the first one that spans at least
    one character. *)
Definition match_here (r : regex) (nonempty : bool) (p : option ascii)
  (s : string) : option nat :=
  run r (fun _ s' =>
           let n := String.length s - String.length s' in
           if nonempty && (n =? 0) then None else Some n) p s.

(** Scan for the leftmost position where [r] matches. *)
Fixpoint search_from (r : regex) (p : option ascii) (s : string) : bool :=
  match match_here r false p s with
  | Some _ => true
  | None =>
      match s with
      | String c t => search_from r (Some c) t
      | EmptyString => false
      end
  end.

(** The matches of [r] in [s], counted: they are taken leftmost first and
    do not overlap. [inside] counts the characters of the last match that
    are still ahead; a match is looked for only once it is used up. After
    an empty match, a match that starts at the same place has to span a
    character. *)
Fixpoint count_from (r : regex) (inside : nat) (p : option ascii)
         (s : string) : nat :=
  match inside with
  | S inside' =>
      match s with
      | String c t => count_from r inside' (Some c) t
      | EmptyString => 0
      end
  | O =>
      match match_here r false p s, s with
      | Some (S n), String c t => S (count_from r n (Some c) t)
      | Some (S _), EmptyString => 1
      | Some O, String c t =>
          match match_here r true p s with
          | Some n => S (S (count_from r (pred n) (Some c) t))
          | None => S (count_from r 0 (Some c) t)
          end
      | Some O, EmptyString => 1
      | None, String c t => count_from r 0 (Some c) t
      | None, EmptyString => 0
      end
  end.

(** *** Pattern syntax *)

(** [seq [r1; ...; rn]] is the concatenation r1...rn. *)
Fixpoint seq (rs : list regex) : regex :=
  match rs with
  | [] => Lit ""
  | [r] => r
  | r :: rs' => Cat r (seq rs')
  end.

(** [alt [r1; ...; rn]] is the alternation r1|...|rn. *)
Fixpoint alt (rs : list regex) : regex :=
  match rs with
  | [] => Lit ""
  | [r] => r
  | r :: rs' => Alt r (alt rs')
  end.

(** Literals that follow one another become one literal. *)
Fixpoint merge (rs : list regex) : list regex :=
  match rs with
  | Lit a :: rs' =>
      match merge rs' with
      | Lit b :: rest => Lit (a +++ b) :: rest
      | rest => Lit a :: rest
      end
  | r :: rs' => r :: merge rs'
  | [] => []
  end.

(** What an opening parenthesis opened. *)
Inductive group_kind : Type :=
| Whole        (* the pattern itself *)
| Capture      (* ( *)
| NotFollowed. (* (?! *)

(** A group being read: the alternatives finished so far and the items of
    the current one, both latest first, and whether the latest item can
    take a repetition: in this fragment, an item that matches exactly one
    character. *)
Record frame : Type := {
  kind : group_kind;
  alts : list regex;
  items : list regex;
  repeatable : bool
}.

(** Where the reader is in the pattern. *)
Inductive mode : Type :=
| Normal
| Escape                                      (* after a backslash *)
| Opened                                      (* after ( *)
| OpenedQ                                     (* after (? *)
| ClassOpen                                   (* after [ *)
| Class (neg first dash : bool) (acc : list item)
| ClassEscape (neg dash : bool) (acc : list item).

Record reader : Type := {
  now : mode;
  top : frame;
  below : list frame
}.

Definition push_item (r : regex) (can_repeat : bool) (f : frame) : frame :=
  {| kind := kind f; alts := alts f; items := r :: items f;
     repeatable := can_repeat |}.

Definition close_frame (f : frame) : regex :=
  alt (rev (seq (merge (rev (items f))) :: alts f)).

Definition is_alnum (c : ascii) : bool :=
  Char.between 48 57 c || Char.between 65 90 c || Char.between 97 122 c.

(** A repetition mark after the latest item. *)
Definition repeat_last (q : regex -> regex) (st : reader) : option reader :=
  match items (top st), repeatable (top st) with
  | r :: rs, true =>
      Some {| now := Normal;
              top := {| kind := kind (top st); alts := alts (top st);
                        items := q r :: rs; repeatable := false |};
              below := below st |}
  | _, _ => None
  end.

Definition item_read (r : regex) (can_repeat : bool) (st : reader) : reader :=
  {| now := Normal; top := push_item r can_repeat (top st); below := below st |}.

(** One character [c] of the pattern, [rest] being what follows it.
    [None] stands for syntax that [re] rejects and for syntax outside the
    fragment. *)
Definition read_normal (st : reader) (c : ascii) (rest : string)
  : option reader :=
  if Ascii.eqb c Char.backslash then
    Some {| now := Escape; top := top st; below := below st |}
  else if Ascii.eqb c "(" then
    Some {| now := Opened; top := top st; below := below st |}
  else if Ascii.eqb c ")" then
    match below st, kind (top st) with
    | parent :: others, Capture =>
        Some {| now := Normal;
                top := push_item (close_frame (top st)) false parent;
                below := others |}
    | parent :: others, NotFollowed =>
        Some {| now := Normal;
                top := push_item (NotAhead (close_frame (top st))) false parent;
                below := others |}
    | _, _ => None
    end
  else if Ascii.eqb c "|" then
    Some {| now := Normal;
            top := {| kind := kind (top st);
                      alts := seq (merge (rev (items (top st)))) :: alts (top st);
                      items := []; repeatable := false |};
            below := below st |}
  else if Ascii.eqb c "[" then
    Some {| now := ClassOpen; top := top st; below := below st |}
  else if Ascii.eqb c "." then Some (item_read Dot true st)
  else if Ascii.eqb c "^" then Some (item_read Bol false st)
  else if Ascii.eqb c "$" then Some (item_read Eol false st)
  else if Ascii.eqb c "*" then repeat_last Star st
  else if Ascii.eqb c "+" then repeat_last Plus st
  else if Ascii.eqb c "?" then None
  else if Ascii.eqb c "{" then
    (* a brace is a literal unless it opens a repetition count *)
    match rest with
    | String d _ =>
        if Char.isdigit d || Ascii.eqb d "," then None
        else Some (item_read (Lit (String c EmptyString)) true st)
    | EmptyString => Some (item_read (Lit (String c EmptyString)) true st)
    end
  else Some (item_read (Lit (String c EmptyString)) true st).

Definition read_class (st : reader) (neg first dash : bool) (acc : list item)
  (c : ascii) : option reader :=
  if Ascii.eqb c "]" then
    if first || dash then None
    else Some (item_read (if neg then NotIn (rev acc) else In (rev acc)) true st)
  else if Ascii.eqb c Char.backslash then
    Some {| now := ClassEscape neg dash acc; top := top st; below := below st |}
  else if Ascii.eqb c "-" then
    match acc, dash with
    | One _ :: _, false =>
        Some {| now := Class neg false true acc; top := top st; below := below st |}
    | _, _ => None
    end
  else if Ascii.eqb c "[" then None
  else if dash then
    match acc with
    | One lo :: acc' =>
        if Char.code lo <=? Char.code c then
          Some {| now := Class neg false false (Range lo c :: acc');
                  top := top st; below := below st |}
        else None
    | _ => None
    end
  else
    Some {| now := Class neg false false (One c :: acc);
            top := top st; below := below st |}.

Definition read (st : reader) (c : ascii) (rest : string) : option reader :=
  match now st with
  | Normal => read_normal st c rest
  | Escape =>
      if Ascii.eqb c "b" then Some (item_read Boundary false st)
      else if Ascii.eqb c "s" then Some (item_read (In [Space]) true st)
      else if Ascii.eqb c "w" then Some (item_read (In [Word]) true st)
      else if Ascii.eqb c "d" then Some (item_read (In [Digit]) true st)
      else if is_alnum c then None
      else Some (item_read (Lit (String c EmptyString)) true st)
  | Opened =>
      if Ascii.eqb c "?" then
        Some {| now := OpenedQ; top := top st; below := below st |}
      else
        read_normal
          {| now := Normal;
             top := {| kind := Capture; alts := []; items := [];
                       repeatable := false |};
             below := top st :: below st |} c rest
  | OpenedQ =>
      if Ascii.eqb c "!" then
        Some {| now := Normal;
                top := {| kind := NotFollowed; alts := []; items := [];
                          repeatable := false |};
                below := top st :: below st |}
      else None
  | ClassOpen =>
      if Ascii.eqb c "^" then
        Some {| now := Class true true false []; top := top st; below := below st |}
      else read_class st false true false [] c
  | Class neg first dash acc => read_class st neg first dash acc c
  | ClassEscape neg dash acc =>
      if dash then None
      else if Ascii.eqb c "s" then
        Some {| now := Class neg false false (Space :: acc);
                top := top st; below := below st |}
      else if Ascii.eqb c "w" then
        Some {| now := Class neg false false (Word :: acc);
                top := top st; below := below st |}
      else if Ascii.eqb c "d" then
        Some {| now := Class neg false false (Digit :: acc);
                top := top st; below := below st |}
      else if is_alnum c then None
      else Some {| now := Class neg false false (One c :: acc);
                   top := top st; below := below st |}
  end.

Fixpoint read_all (st : reader) (pattern : string) : option regex :=
  match pattern with
  | String c rest =>
      match read st c rest with
      | Some st' => read_all st' rest
      | None => None
      end
  | EmptyString =>
      match now st, kind (top st), below st with
      | Normal, Whole, [] => Some (close_frame (top st))
      | _, _, _ => None
      end
  end.

(** [re.compile(pattern)] for the fragment; [None] stands for [re.error]
    and for syntax outside the fragment. *)
Definition compile (pattern : string) : option regex :=
  read_all {| now := Normal;
              top := {| kind := Whole; alts := []; items := [];
                        repeatable := false |};
              below := [] |} pattern.

(** [re.search(pattern, s)] as a truth value. A pattern that does not
    compile matches nothing here; the patterns of the optimizer all compile
    (see [patterns_compile]). *)
Definition search (pattern : string) (s : string) : bool :=
  match compile pattern with
  | Some r => search_from r None s
  | None => false
  end.

(** [len(re.findall(pattern, s))] *)
Definition findall_count (pattern : string) (s : string) : nat :=
  match compile pattern with
  | Some r => count_from r 0 None s
  | None => 0
  end.

End Re.

(** ** The rule tables *)

Module Rules.

(** A rule: the pattern and the text of the [suggestion] field. *)
Definition rule : Type := string * string.

(** The double quote, which a string literal cannot hold. *)
Definition q : string := String Char.dquote EmptyString.

(** The [patterns] list of [_check_performance_patterns]. *)
Definition performance : list rule :=
  [ ("\bmalloc\s*\(", "Use kmalloc instead of malloc in kernel code");
    ("\bsprintf\s*\(", "sprintf is unsafe, use snprintf");
    ("\bstrcpy\s*\(", "strcpy is unsafe, use strncpy");
    ("\bstrcat\s*\(", "strcat is unsafe, use strncat");
    ("for\s*\([^;]*;[^;]*\+\+[^;]*;[^)]*\)\s*{[^}]*malloc",
     "Memory allocation in loop - consider pre-allocation");
    (* \bprintf\s*\(.*"\s*\\n"\s*\) *)
    ("\bprintf\s*\(.*" +++ q +++ "\s*\\n" +++ q +++ "\s*\)",
     "Use kinfo/kwarning/kerror instead of printf");
    ("while\s*\(1\)", "Infinite loop detected - ensure proper exit conditions");
    ("\bvolatile\s+(?!atomic)",
     "Consider atomic operations instead of volatile for synchronization") ].

(** The [patterns] list of [_check_security_patterns]. *)
Definition security : list rule :=
  [ ("\bgets\s*\(", "gets() is unsafe, use fgets()");
    (* \bscanf\s*\([^,]*,\s*"%s" *)
    ("\bscanf\s*\([^,]*,\s*" +++ q +++ "%s" +++ q,
     "Unbounded string input, use length-limited format");
    ("char\s+\w+\[\d+\].*scanf", "Fixed buffer with scanf - potential overflow");
    ("memcpy\s*\([^,]*,[^,]*,[^)]*\+", "Potential integer overflow in memcpy size");
    ("__asm__.*cli.*", "Disabling interrupts - ensure proper re-enabling");
    ("#define.*\(.*\).*\\\s*$", "Multi-line macro without do-while") ].

(** The [patterns] list of [_check_quality_patterns]. *)
Definition quality : list rule :=
  [ ("^[^/]*//.*TODO.*", "TODO comment found");
    ("^[^/]*//.*FIXME.*", "FIXME comment found");
    ("^[^/]*//.*HACK.*", "HACK comment found");
    ("^\s*if\s*\([^)]*\)\s*;", "Empty if statement");
    ("^\s*}\s*else\s*{[^}]*}$", "Single-line else block could be simplified");
    ("[^\w]0x[0-9a-fA-F]+[^\w]", "Magic number detected - consider named constant") ].

(** The three patterns of [_analyze_hotspot_file]. *)
Definition loops : string := "\b(for|while)\s*\(".
Definition allocations : string := "\b(kmalloc|malloc)\s*\(".
Definition locks : string := "\b(spin_lock|mutex_lock|lock)\s*\(".

End Rules.

(** ** Numbers: [int(text, 16)] and the [:.1f] rendering of a quotient *)

Module Num.
Local Open Scope Z_scope.

(** The characters [int] skips around the number: the C-locale blanks,
    and NEL and NBSP, which are turned into a blank first. *)
Definition blank (c : ascii) : bool :=
  Char.between 9 13 c || (Char.code c =? 32)%nat || (Char.code c =? 133)%nat
  || (Char.code c =? 160)%nat.

Fixpoint skip_blanks (s : string) : string :=
  match s with
  | String c t => if blank c then skip_blanks t else s
  | EmptyString => EmptyString
  end.

(** Value of a base-16 digit. *)
Definition hex_digit (c : ascii) : option Z :=
  if Char.between 48 57 c then Some (Z.of_nat (Char.code c) - 48)
  else if Char.between 97 102 c then Some (Z.of_nat (Char.code c) - 87)
  else if Char.between 65 70 c then Some (Z.of_nat (Char.code c) - 55)
  else None.

(** Read digits and single underscores. [seen] is whether a character was
    read, [under] whether the last one was an underscore, [acc] the value
    so far. Returns the value and what follows the number, or [None] for a
    doubled or trailing underscore or an empty number. *)
Fixpoint digits (seen under : bool) (acc : Z) (s : string)
  : option (Z * string) :=
  let stop := if seen && negb under then Some (acc, s) else None in
  match s with
  | EmptyString => stop
  | String c t =>
      if Ascii.eqb c "_" then
        if under then None else digits true true acc t
      else
        match hex_digit c with
        | Some d => digits true false (16 * acc + d) t
        | None => stop
        end
  end.

(** After the sign: an optional [0x] or [0X], which may be followed by one
    underscore. *)
Definition unprefix (s : string) : string :=
  match s with
  | String "0" (String x t) =>
      if Ascii.eqb x "x" || Ascii.eqb x "X" then
        match t with
        | String "_" t' => t'
        | _ => t
        end
      else s
  | _ => s
  end.

(** [int(s, 16)]; [None] stands for [ValueError]. *)
Definition int16 (s : string) : option Z :=
  let s1 := skip_blanks s in
  let '(sign, s2) :=
    match s1 with
    | String "+" t => (1, t)
    | String "-" t => (-1, t)
    | _ => (1, s1)
    end in
  let s3 := unprefix s2 in
  match s3 with
  | String "_" _ => None
  | _ =>
      match digits false false 0 s3 with
      | Some (v, rest) =>
          match skip_blanks rest with
          | EmptyString => Some (sign * v)
          | _ => None
          end
      | None => None
      end
  end.

(** A positive integer rounded to the 53 significant bits of a float, ties
    to even. *)
Definition round53 (n : Z) : Z :=
  let bits := Z.log2 n + 1 in
  if bits <=? 53 then n
  else
    let sh := bits - 53 in
    let q := Z.shiftr n sh in
    let r := n - Z.shiftl q sh in
    let half := Z.shiftl 1 (sh - 1) in
    let q' := if (half <? r) || ((r =? half) && Z.odd q) then q + 1 else q in
    Z.shiftl q' sh.

(** A positive float, as the quotient num / 2^scale. Only quotients of a
    positive integer by a power of two occur, and those are exact. *)
Record float : Type := { num : Z; scale : Z }.

(** [n / 1024] for an integer [n > 0]: the float nearest to the quotient.
    [None] stands for the [OverflowError] of a quotient no float can
    hold. *)
Definition int_div_1024 (n : Z) : option float :=
  let m := round53 n in
  if Z.shiftl 1 1034 <=? m then None else Some {| num := m; scale := 10 |}.

(** [x / 1024] for a float [x]. *)
Definition float_div_1024 (x : float) : float :=
  {| num := num x; scale := scale x + 10 |}.

(** [f"{x:.1f}"]: the float to one decimal, ties to even. *)
Definition fmt_1f (x : float) : string :=
  let k := scale x in
  let t := Z.shiftr (10 * num x) k in
  let r := 10 * num x - Z.shiftl t k in
  let half := Z.shiftl 1 (k - 1) in
  let t' := if (half <? r) || ((r =? half) && Z.odd t) then t + 1 else t in
  Str.of_Z (t' / 10) +++ "." +++ Str.of_Z (t' mod 10).

End Num.

(** ** Data: findings, suggestions, the report *)

(** An entry of [performance_issues], [security_issues] or [code_issues]. *)
Module Finding.
Record t : Type := make {
  file : string;
  line : nat;
  issue : string;
  suggestion : string;
  severity : string
}.
End Finding.

(** An entry of [suggestions]. *)
Module Suggestion.
Record t : Type := make {
  category : string;
  issue : string;
  suggestion : string;
  impact : string
}.
End Suggestion.

(** A [dict] with string keys, in insertion order. *)
Module Dict.
Definition t (V : Type) : Type := list (string * V).

Fixpoint get {V} (d : t V) (key : string) : option V :=
  match d with
  | [] => None
  | (k, v) :: d' => if String.eqb k key then Some v else get d' key
  end.

(** [d[key] = v]: a key already there keeps its place. *)
Fixpoint set {V} (d : t V) (key : string) (v : V) : t V :=
  match d with
  | [] => [(key, v)]
  | (k, v0) :: d' =>
      if String.eqb k key then (k, v) :: d' else (k, v0) :: set d' key v
  end.
End Dict.

(** class [OptimizationReport] *)
Record OptimizationReport : Type := {
  code_issues : list Finding.t;
  performance_issues : list Finding.t;
  security_issues : list Finding.t;
  suggestions : list Suggestion.t;
  metrics : Dict.t N
}.

(** [OptimizationReport()] *)
Definition new_report : OptimizationReport :=
  {| code_issues := []; performance_issues := []; security_issues := [];
     suggestions := []; metrics := [] |}.

Definition add_code_issue (f : Finding.t) (r : OptimizationReport) :=
  {| code_issues := code_issues r ++ [f];
     performance_issues := performance_issues r;
     security_issues := security_issues r;
     suggestions := suggestions r; metrics := metrics r |}.

Definition add_performance_issue (f : Finding.t) (r : OptimizationReport) :=
  {| code_issues := code_issues r;
     performance_issues := performance_issues r ++ [f];
     security_issues := security_issues r;
     suggestions := suggestions r; metrics := metrics r |}.

Definition add_security_issue (f : Finding.t) (r : OptimizationReport) :=
  {| code_issues := code_issues r;
     performance_issues := performance_issues r;
     security_issues := security_issues r ++ [f];
     suggestions := suggestions r; metrics := metrics r |}.

Definition add_suggestion (s : Suggestion.t) (r : OptimizationReport) :=
  {| code_issues := code_issues r;
     performance_issues := performance_issues r;
     security_issues := security_issues r;
     suggestions := suggestions r ++ [s]; metrics := metrics r |}.

Definition set_metric (key : string) (v : N) (r : OptimizationReport) :=
  {| code_issues := code_issues r;
     performance_issues := performance_issues r;
     security_issues := security_issues r;
     suggestions := suggestions r; metrics := Dict.set (metrics r) key v |}.

(** ** What the optimizer prints *)

(** The three closing verdicts of the report. *)
Inductive verdict : Type :=
| ExcellentCodeQuality       (* "EXCELLENT CODE QUALITY!" *)
| SecurityLooksGood          (* "SECURITY LOOKS GOOD" *)
| SecurityNeedsAttention.    (* "SECURITY ISSUES NEED ATTENTION" *)

(** One [print]. The lines of [log] are kept as text; the blocks of the
    report are kept as the values they render. *)
Inductive output : Type :=
| Text (s : string)
| ReportTitle
| PerformanceBlock (count : nat) (shown : list (string * nat * string * string))
| SecurityBlock (count : nat) (shown : list (string * nat * string * string))
| QualityBlock (count : nat) (todo_count fixme_count : nat) (other : Z)
| SuggestionBlock (by_category : Dict.t (list (string * string)))
| MetricsTitle
| KernelSizeLine (megabytes : string)
| SummaryBlock (total_issues n_suggestions n_security n_performance n_quality : nat)
| VerdictBlock (v : verdict)
| ReportEnd.

(** ** Exceptions and the state the methods run in *)

Inductive exn_kind : Type := ValueError | IndexError | OverflowError | OSError.

Record exn : Type := { kind : exn_kind; message : string }.

(** The state of a run: the optimizer's [report], what was printed so far,
    and the wall clock, as the readings [time.strftime] returns one after
    the other with the number of readings taken. *)
Record World : Type := {
  report : OptimizationReport;
  stdout : list output;
  clock : nat -> string;
  ticks : nat
}.

Inductive result (A : Type) : Type :=
| Ok (a : A)
| Raise (e : exn).
Arguments Ok {A} a.
Arguments Raise {A} e.

(** A method body: it runs in a world and returns or raises. *)
Definition M (A : Type) : Type := World -> result A * World.

Definition ret {A} (a : A) : M A := fun w => (Ok a, w).

Definition bind {A B} (m : M A) (f : A -> M B) : M B :=
  fun w =>
    match m w with
    | (Ok a, w') => f a w'
    | (Raise e, w') => (Raise e, w')
    end.

Definition raise {A} (e : exn) : M A := fun w => (Raise e, w).

(** A call into a collaborator, which returns or raises. *)
Definition call {A} (r : result A) : M A := fun w => (r, w).

(** [try: body except Exception as e: handler(e)] *)
Definition try_except {A} (body : M A) (handler : exn -> M A) : M A :=
  fun w =>
    match body w with
    | (Ok a, w') => (Ok a, w')
    | (Raise e, w') => handler e w'
    end.

Notation "x <- m ;; k" := (bind m (fun x => k))
  (at level 61, m at next level, right associativity).
Notation "m ;; k" := (bind m (fun _ => k))
  (at level 61, right associativity).

(** [for x in xs: body(x)] *)
Fixpoint for_each {A} (xs : list A) (body : A -> M unit) : M unit :=
  match xs with
  | [] => ret tt
  | x :: xs' => body x ;; for_each xs' body
  end.

(** [enumerate(xs, start)] *)
Fixpoint enumerate {A} (start : nat) (xs : list A) : list (nat * A) :=
  match xs with
  | [] => []
  | x :: xs' => (start, x) :: enumerate (S start) xs'
  end.

Definition update_report (f : OptimizationReport -> OptimizationReport)
  : M unit :=
  fun w => (Ok tt, {| report := f (report w); stdout := stdout w;
                      clock := clock w; ticks := ticks w |}).

Definition get_report : M OptimizationReport := fun w => (Ok (report w), w).

Definition print (o : output) : M unit :=
  fun w => (Ok tt, {| report := report w; stdout := stdout w ++ [o];
                      clock := clock w; ticks := ticks w |}).

(** [time.strftime("%H:%M:%S")] *)
Definition strftime : M string :=
  fun w => (Ok (clock w (ticks w)),
            {| report := report w; stdout := stdout w;
               clock := clock w; ticks := S (ticks w) |}).

(** The world an [OrionOptimizer()] starts in. *)
Definition fresh (time : nat -> string) : World :=
  {| report := new_report; stdout := []; clock := time; ticks := 0 |}.

(** ** The collaborators: the file system and [objdump] *)

(** A [pathlib.Path] under the project root, as far as the optimizer looks
    at it. *)
Record Path : Type := {
  full : string;          (* str(file_path) *)
  relative : string;      (* str(file_path.relative_to(self.project_root)) *)
  name : string           (* file_path.name *)
}.

Record Env : Type := {
  (** [self.project_root.glob(pattern)], in the order it yields *)
  glob : string -> list Path;
  (** [file_path.is_file()] *)
  is_file : Path -> bool;
  (** [open(file_path, 'r', encoding='utf-8')] and [f.read()]; [Raise]
      when the file cannot be opened or decoded *)
  read_text : Path -> result string;
  (** project_root / "build" / "kernel" / "orion-kernel.elf" *)
  kernel_path : Path;
  (** [st_size] of the kernel, [None] when [kernel_path.exists()] is false *)
  kernel_stat : option N;
  (** [self.run_command(cmd)]: success, stdout, stderr *)
  run_command : list string -> bool * string * string
}.

(** class [Colors] *)
Module Colors.
Definition esc (code : string) : string := String (ascii_of_nat 27) code.
Definition HEADER : string := esc "[95m".
Definition OKBLUE : string := esc "[94m".
Definition OKCYAN : string := esc "[96m".
Definition OKGREEN : string := esc "[92m".
Definition WARNING : string := esc "[93m".
Definition FAIL : string := esc "[91m".
Definition ENDC : string := esc "[0m".
End Colors.

(** ** class [OrionOptimizer] *)

Module OrionOptimizer.

Definition when (b : bool) (m : M unit) : M unit := if b then m else ret tt.

(** [log(message, level)] *)
Definition log (message level : string) : M unit :=
  let colors : Dict.t string :=
    [("INFO", Colors.OKBLUE); ("SUCCESS", Colors.OKGREEN);
     ("WARNING", Colors.WARNING); ("ERROR", Colors.FAIL);
     ("HEADER", Colors.HEADER)] in
  let color :=
    match Dict.get colors level with Some c => c | None => Colors.ENDC end in
  timestamp <- strftime ;;
  print (Text (color +++ "[" +++ timestamp +++ "] [" +++ level +++ "]"
               +++ Colors.ENDC +++ " " +++ message)).

Definition _check_performance_patterns (file_path : Path) (line_num : nat)
  (line : string) : M unit :=
  let line_clean := Str.strip line in
  for_each Rules.performance (fun '(pattern, suggestion) =>
    when (Re.search pattern line_clean)
      (update_report (add_performance_issue
         {| Finding.file := relative file_path;
            Finding.line := line_num;
            Finding.issue := line_clean;
            Finding.suggestion := suggestion;
            Finding.severity := "medium" |}))).

Definition _check_security_patterns (file_path : Path) (line_num : nat)
  (line : string) : M unit :=
  let line_clean := Str.strip line in
  for_each Rules.security (fun '(pattern, suggestion) =>
    when (Re.search pattern line_clean)
      (update_report (add_security_issue
         {| Finding.file := relative file_path;
            Finding.line := line_num;
            Finding.issue := line_clean;
            Finding.suggestion := suggestion;
            Finding.severity := "high" |}))).

Definition _check_quality_patterns (file_path : Path) (line_num : nat)
  (line : string) : M unit :=
  let line_clean := Str.strip line in
  for_each Rules.quality (fun '(pattern, suggestion) =>
    when (Re.search pattern line_clean)
      (update_report (add_code_issue
         {| Finding.file := relative file_path;
            Finding.line := line_num;
            Finding.issue := line_clean;
            Finding.suggestion := suggestion;
            Finding.severity := "low" |}))).

(** The body of the [try] in [_analyze_elf_sections], for one line with at
    least three fields: the section and its size; [None] stands for the
    [ValueError] or [IndexError] that the [except] turns into [continue]. *)
Definition section_of (parts : list string) : option (string * Z) :=
  match nth_error parts 1, nth_error parts 2 with
  | Some section_name, Some size_hex =>
      match Num.int16 size_hex with
      | Some size => Some (section_name, size)
      | None => None
      end
  | _, _ => None
  end.

(** The first loop of [_analyze_elf_sections]: [large_sections] after the
    lines seen so far. *)
Definition scan_line (large_sections : list (string * Z)) (line : string)
  : list (string * Z) :=
  if Str.contains "CONTENTS" line then
    let parts := Str.split_ws line in
    if 3 <=? List.length parts then
      match section_of parts with
      | Some (section_name, size) =>
          if (1024 * 1024 <? size)%Z
          then large_sections ++ [(section_name, size)]
          else large_sections
      | None => large_sections
      end
    else large_sections
  else large_sections.

Definition overflow : exn :=
  {| kind := OverflowError;
     message := "integer division result too large for a float" |}.

Definition _analyze_elf_sections (objdump_output : string) : M unit :=
  let lines := Str.split_on Char.newline objdump_output in
  let large_sections := fold_left scan_line lines [] in
  for_each large_sections (fun '(section_name, size) =>
    kb <- match Num.int_div_1024 size with
          | Some x => ret (Num.fmt_1f x)
          | None => raise overflow
          end ;;
    update_report (add_suggestion
      {| Suggestion.category := "binary_size";
         Suggestion.issue := "Large section " +++ section_name +++ ": " +++ kb
                             +++ "KB";
         Suggestion.suggestion := "Investigate if " +++ section_name
                                  +++ " can be optimized or compressed";
         Suggestion.impact := "medium" |})).

Section WithEnv.
Variable env : Env.

Definition analyze_code_quality : M unit :=
  log "Analyzing code quality" "HEADER" ;;
  let c_files := glob env "kernel/**/*.[ch]" ++ glob env "bootloader/**/*.[ch]" in
  for_each c_files (fun file_path =>
    try_except
      (content <- call (read_text env file_path) ;;
       let lines := Str.split_on Char.newline content in
       for_each (enumerate 1 lines) (fun '(line_num, line) =>
         _check_performance_patterns file_path line_num line ;;
         _check_security_patterns file_path line_num line ;;
         _check_quality_patterns file_path line_num line))
      (fun e =>
         log ("Error analyzing " +++ full file_path +++ ": " +++ message e)
             "WARNING")).

Definition analyze_binary_size : M unit :=
  log "Analyzing binary sizes" "HEADER" ;;
  match kernel_stat env with
  | Some kernel_size =>
      update_report (set_metric "kernel_size" kernel_size) ;;
      when (10 * 1024 * 1024 <? kernel_size)%N
        (mb <- match Num.int_div_1024 (Z.of_N kernel_size) with
               | Some x => ret (Num.fmt_1f (Num.float_div_1024 x))
               | None => raise overflow
               end ;;
         update_report (add_suggestion
           {| Suggestion.category := "binary_size";
              Suggestion.issue := "Kernel size is large: " +++ mb +++ "MB";
              Suggestion.suggestion :=
                "Consider enabling link-time optimization (-flto)";
              Suggestion.impact := "high" |})) ;;
      let '(success, stdout, stderr) :=
        run_command env ["objdump"; "-h"; full (kernel_path env)] in
      when success (_analyze_elf_sections stdout)
  | None => ret tt
  end.

Definition _analyze_hotspot_file (file_path : Path) (description : string)
  : M unit :=
  try_except
    (content <- call (read_text env file_path) ;;
     let loop_count := Re.findall_count Rules.loops content in
     let malloc_count := Re.findall_count Rules.allocations content in
     let lock_count := Re.findall_count Rules.locks content in
     when (10 <? loop_count)
       (update_report (add_suggestion
          {| Suggestion.category := "performance";
             Suggestion.issue :=
               name file_path +++ ": High loop count ("
               +++ Str.of_N (N.of_nat loop_count) +++ ")";
             Suggestion.suggestion :=
               "Review loops for optimization opportunities";
             Suggestion.impact := "medium" |})) ;;
     when (5 <? malloc_count)
       (update_report (add_suggestion
          {| Suggestion.category := "performance";
             Suggestion.issue :=
               name file_path +++ ": Many allocations ("
               +++ Str.of_N (N.of_nat malloc_count) +++ ")";
             Suggestion.suggestion :=
               "Consider object pooling or pre-allocation";
             Suggestion.impact := "high" |})) ;;
     when (15 <? lock_count)
       (update_report (add_suggestion
          {| Suggestion.category := "performance";
             Suggestion.issue :=
               name file_path +++ ": Many locks ("
               +++ Str.of_N (N.of_nat lock_count) +++ ")";
             Suggestion.suggestion :=
               "Review for lock contention and consider lock-free alternatives";
             Suggestion.impact := "high" |})))
    (fun e =>
       log ("Error analyzing hotspot " +++ full file_path +++ ": "
            +++ message e) "WARNING").

Definition check_performance_hotspots : M unit :=
  log "Checking performance hotspots" "HEADER" ;;
  let hotspot_patterns :=
    [("kernel/mm/", "Memory management - critical path");
     ("kernel/core/scheduler.c", "Scheduler - runs frequently");
     ("kernel/core/syscalls.c", "System calls - user-kernel boundary");
     ("kernel/core/ipc.c", "IPC - inter-process communication")] in
  for_each hotspot_patterns (fun '(pattern, description) =>
    let files := glob env (pattern +++ "*") in
    for_each files (fun file_path =>
      when (is_file env file_path)
        (_analyze_hotspot_file file_path description))).

End WithEnv.

(** [sum(1 for x in xs if p(x))] *)
Definition count_if {A} (p : A -> bool) (xs : list A) : nat :=
  fold_left (fun total x => if p x then total + 1 else total) xs 0.

(** The [by_category] dictionary of the report: the suggestions under their
    category, categories in the order first seen. *)
Definition group_by_category (ss : list Suggestion.t)
  : Dict.t (list Suggestion.t) :=
  fold_left (fun by_category suggestion =>
    let category := Suggestion.category suggestion in
    let by_category :=
      match Dict.get by_category category with
      | Some _ => by_category
      | None => Dict.set by_category category []
      end in
    match Dict.get by_category category with
    | Some group => Dict.set by_category category (group ++ [suggestion])
    | None => by_category
    end) ss [].

(** What the report shows of an issue: file, line, the first 80 characters
    of the text, the suggestion. *)
Definition shown (issue : Finding.t) : string * nat * string * string :=
  (Finding.file issue, Finding.line issue, Str.take 80 (Finding.issue issue),
   Finding.suggestion issue).

Definition generate_optimization_report : M unit :=
  log "Generating optimization report" "HEADER" ;;
  print ReportTitle ;;
  self_report <- get_report ;;
  let performance_issues := performance_issues self_report in
  let security_issues := security_issues self_report in
  let code_issues := code_issues self_report in
  let suggestions := suggestions self_report in
  let metrics := metrics self_report in
  (* Performance Issues *)
  when (negb (List.length performance_issues =? 0))
    (print (PerformanceBlock (List.length performance_issues)
              (map shown (firstn 10 performance_issues)))) ;;
  (* Security Issues *)
  when (negb (List.length security_issues =? 0))
    (print (SecurityBlock (List.length security_issues)
              (map shown security_issues))) ;;
  (* Code Quality Issues *)
  when (negb (List.length code_issues =? 0))
    (let todo_count :=
       count_if (fun issue => Str.contains "TODO" (Finding.issue issue))
                code_issues in
     let fixme_count :=
       count_if (fun issue => Str.contains "FIXME" (Finding.issue issue))
                code_issues in
     print (QualityBlock (List.length code_issues) todo_count fixme_count
              (Z.of_nat (List.length code_issues) - Z.of_nat todo_count
               - Z.of_nat fixme_count)%Z)) ;;
  (* Optimization Suggestions *)
  when (negb (List.length suggestions =? 0))
    (let by_category := group_by_category suggestions in
     print (SuggestionBlock
              (map (fun '(category, group) =>
                      (category,
                       map (fun suggestion =>
                              (Suggestion.impact suggestion,
                               Suggestion.suggestion suggestion))
                           (firstn 5 group)))
                   by_category))) ;;
  (* Metrics *)
  when (negb (List.length metrics =? 0))
    (print MetricsTitle ;;
     for_each metrics (fun '(metric, value) =>
       when (String.eqb metric "kernel_size")
         (mb <- match Num.int_div_1024 (Z.of_N value) with
                | Some x => ret (Num.fmt_1f (Num.float_div_1024 x))
                | None => raise overflow
                end ;;
          print (KernelSizeLine mb)))) ;;
  (* Summary *)
  let total_issues :=
    List.length performance_issues + List.length security_issues
    + List.length code_issues in
  print (SummaryBlock total_issues (List.length suggestions)
           (List.length security_issues) (List.length performance_issues)
           (List.length code_issues)) ;;
  (if total_issues =? 0 then print (VerdictBlock ExcellentCodeQuality)
   else if List.length security_issues =? 0
        then print (VerdictBlock SecurityLooksGood)
        else print (VerdictBlock SecurityNeedsAttention)) ;;
  print ReportEnd.

(** [main()] with [--action analyze] *)
Definition main_analyze (env : Env) : M unit :=
  analyze_code_quality env ;;
  analyze_binary_size env ;;
  check_performance_hotspots env ;;
  generate_optimization_report.

Section Manifests.
Variable env : Env.
(** [open(cargo_path, 'r')] and [f.read()], in the encoding of the locale;
    [Raise] when the file cannot be opened or decoded *)
Variable read_manifest : Path -> result string.

Definition _optimize_cargo_toml (cargo_path : Path) : M unit :=
  try_except
    (content <- call (read_manifest cargo_path) ;;
     (* Check for optimization opportunities *)
     when (negb (Str.contains "[profile.release]" content))
       (update_report (add_suggestion
          {| Suggestion.category := "rust_optimization";
             Suggestion.issue :=
               relative cargo_path +++ ": Missing release profile optimization";
             Suggestion.suggestion :=
               "Add [profile.release] section with lto = true, codegen-units = 1";
             Suggestion.impact := "medium" |})) ;;
     when (negb (Str.contains ("panic = " +++ Rules.q +++ "abort" +++ Rules.q)
                              content))
       (update_report (add_suggestion
          {| Suggestion.category := "rust_optimization";
             Suggestion.issue :=
               relative cargo_path +++ ": Using default panic strategy";
             Suggestion.suggestion :=
               "Add panic = " +++ Rules.q +++ "abort" +++ Rules.q
               +++ " for smaller binary size";
             Suggestion.impact := "low" |})))
    (fun e =>
       log ("Error analyzing " +++ full cargo_path +++ ": " +++ message e)
           "WARNING").

Definition optimize_rust_builds : M unit :=
  log "Optimizing Rust builds" "HEADER" ;;
  let cargo_files := glob env "**/Cargo.toml" in
  for_each cargo_files _optimize_cargo_toml.

End Manifests.

End OrionOptimizer.

(** * Properties *)

Import OrionOptimizer.

(** ** Vocabulary of the statements *)

(** [evolves m f]: [m] returns, changes the report by [f] and leaves the
    clock alone, whatever the clock shows and whatever was printed. *)
Definition evolves (m : M unit) (f : OptimizationReport -> OptimizationReport)
  : Prop :=
  forall w,
    fst (m w) = Ok tt
    /\ report (snd (m w)) = f (report w)
    /\ clock (snd (m w)) = clock w.

(** The rules of a table that match a stripped line, in table order. *)
Definition matching (rules : list Rules.rule) (line_clean : string)
  : list Rules.rule :=
  filter (fun r => Re.search (fst r) line_clean) rules.

(** The findings one rule table gives for one line of one file. *)
Definition findings_of (rules : list Rules.rule) (severity : string)
  (file_path : Path) (line_num : nat) (line : string) : list Finding.t :=
  map (fun r => {| Finding.file := relative file_path;
                   Finding.line := line_num;
                   Finding.issue := Str.strip line;
                   Finding.suggestion := snd r;
                   Finding.severity := severity |})
      (matching rules (Str.strip line)).

(** The findings one rule table gives for the text of one file. *)
Definition file_findings (rules : list Rules.rule) (severity : string)
  (file_path : Path) (content : string) : list Finding.t :=
  flat_map (fun nl => findings_of rules severity file_path (fst nl) (snd nl))
           (enumerate 1 (Str.split_on Char.newline content)).

(** The files [analyze_code_quality] visits, in order. *)
Definition c_files (env : Env) : list Path :=
  glob env "kernel/**/*.[ch]" ++ glob env "bootloader/**/*.[ch]".

(** The findings one rule table gives for the whole tree; a file that
    cannot be read gives none. *)
Definition tree_findings (env : Env) (rules : list Rules.rule)
  (severity : string) : list Finding.t :=
  flat_map (fun file_path =>
              match read_text env file_path with
              | Ok content => file_findings rules severity file_path content
              | Raise _ => []
              end)
           (c_files env).

(** A report with findings appended to its three sequences. *)
Definition extend (perf sec qual : list Finding.t) (r : OptimizationReport)
  : OptimizationReport :=
  {| code_issues := code_issues r ++ qual;
     performance_issues := performance_issues r ++ perf;
     security_issues := security_issues r ++ sec;
     suggestions := suggestions r;
     metrics := metrics r |}.

(** A report with suggestions appended. *)
Definition suggest (ss : list Suggestion.t) (r : OptimizationReport)
  : OptimizationReport :=
  {| code_issues := code_issues r;
     performance_issues := performance_issues r;
     security_issues := security_issues r;
     suggestions := suggestions r ++ ss;
     metrics := metrics r |}.

(** Severity is the one of the category. *)
Definition severity_fixed (r : OptimizationReport) : Prop :=
  Forall (fun f => Finding.severity f = "high") (security_issues r)
  /\ Forall (fun f => Finding.severity f = "medium") (performance_issues r)
  /\ Forall (fun f => Finding.severity f = "low") (code_issues r).

(** The worlds an optimizer can be in: a fresh one, and what any of its
    methods leaves behind. *)
Inductive reachable (env : Env) : World -> Prop :=
| reach_fresh time : reachable env (fresh time)
| reach_performance w file_path line_num line :
    reachable env w ->
    reachable env (snd (_check_performance_patterns file_path line_num line w))
| reach_security w file_path line_num line :
    reachable env w ->
    reachable env (snd (_check_security_patterns file_path line_num line w))
| reach_quality w file_path line_num line :
    reachable env w ->
    reachable env (snd (_check_quality_patterns file_path line_num line w))
| reach_code_quality w :
    reachable env w -> reachable env (snd (analyze_code_quality env w))
| reach_elf_sections w objdump_output :
    reachable env w ->
    reachable env (snd (_analyze_elf_sections objdump_output w))
| reach_binary_size w :
    reachable env w -> reachable env (snd (analyze_binary_size env w))
| reach_hotspot_file w file_path description :
    reachable env w ->
    reachable env (snd (_analyze_hotspot_file env file_path description w))
| reach_hotspots w :
    reachable env w -> reachable env (snd (check_performance_hotspots env w))
| reach_report w :
    reachable env w -> reachable env (snd (generate_optimization_report w)).

(** The three categories of findings, each with its rule table, its
    severity, its checking method and its sequence in the report. *)
Inductive category : Type := Performance | Security | Quality.

Definition table (c : category) : list Rules.rule :=
  match c with
  | Performance => Rules.performance
  | Security => Rules.security
  | Quality => Rules.quality
  end.

Definition severity_of (c : category) : string :=
  match c with
  | Performance => "medium"
  | Security => "high"
  | Quality => "low"
  end.

Definition check (c : category) : Path -> nat -> string -> M unit :=
  match c with
  | Performance => _check_performance_patterns
  | Security => _check_security_patterns
  | Quality => _check_quality_patterns
  end.

Definition issues (c : category) (r : OptimizationReport) : list Finding.t :=
  match c with
  | Performance => performance_issues r
  | Security => security_issues r
  | Quality => code_issues r
  end.

(** The suggestions that carry a given advice. *)
Definition advising (advice : string) (ss : list Suggestion.t)
  : list Suggestion.t :=
  filter (fun s => String.eqb (Suggestion.suggestion s) advice) ss.

Definition loop_advice : string :=
  "Review loops for optimization opportunities".
Definition allocation_advice : string :=
  "Consider object pooling or pre-allocation".
Definition lock_advice : string :=
  "Review for lock contention and consider lock-free alternatives".

(** The printed blocks of one kind, in the order printed. *)
Definition picked {X} (sel : output -> option X) (os : list output) : list X :=
  flat_map (fun o => match sel o with Some x => [x] | None => [] end) os.

Definition verdict_in (o : output) : option verdict :=
  match o with VerdictBlock v => Some v | _ => None end.

Definition quality_in (o : output) : option (nat * nat * nat * Z) :=
  match o with
  | QualityBlock count todo_count fixme_count other =>
      Some (count, todo_count, fixme_count, other)
  | _ => None
  end.

(** [says sel m r xs]: run in a world whose report is [r], [m] leaves the
    report as it is and prints, after what was printed before, blocks of
    which those that [sel] picks are [xs]; it may return or raise. *)
Definition says {A X} (sel : output -> option X) (m : M A)
  (r : OptimizationReport) (xs : list X) : Prop :=
  forall w, report w = r ->
    report (snd (m w)) = r
    /\ exists out, stdout (snd (m w)) = stdout w ++ out /\ picked sel out = xs.

(** [shows sel m r xs]: as [says], and [m] returns. *)
Definition shows {X} (sel : output -> option X) (m : M unit)
  (r : OptimizationReport) (xs : list X) : Prop :=
  forall w, report w = r ->
    fst (m w) = Ok tt
    /\ report (snd (m w)) = r
    /\ exists out, stdout (snd (m w)) = stdout w ++ out /\ picked sel out = xs.

(** The sizes in the metrics are sizes a float can hold once divided by
    1024; every size below 2^1033 is, so every file size. *)
Definition printable (r : OptimizationReport) : Prop :=
  Forall (fun kv => Num.int_div_1024 (Z.of_N (snd kv)) <> None) (metrics r).

(** [deterministic m]: the value [m] returns or raises and the report it
    leaves depend on the report it starts from only, not on the clock and
    not on what was printed before. *)
Definition deterministic {A} (m : M A) : Prop :=
  forall w1 w2, report w1 = report w2 ->
    fst (m w1) = fst (m w2) /\ report (snd (m w1)) = report (snd (m w2)).

(** The three analyses of a run, in the order [main] calls them. *)
Definition scan (env : Env) : M unit :=
  analyze_code_quality env ;;
  analyze_binary_size env ;;
  check_performance_hotspots env.

(** [preserves I m]: a property of the report that holds before [m] holds
    after it, whether [m] returns or raises. *)
Definition preserves {A} (I : OptimizationReport -> Prop) (m : M A) : Prop :=
  forall w, I (report w) -> I (report (snd (m w))).

(** ** Sample inputs *)

Definition noon : nat -> string := fun _ => "12:00:00".

Definition in_tree (rel nm : string) : Path :=
  {| full := "/orion/" +++ rel; relative := rel; name := nm |}.

Definition main_c : Path := in_tree "kernel/core/main.c" "main.c".
Definition pmm_c : Path := in_tree "kernel/mm/pmm.c" "pmm.c".
Definition kernel_elf : Path :=
  in_tree "build/kernel/orion-kernel.elf" "orion-kernel.elf".

Definition no_such_file : exn :=
  {| kind := OSError; message := "[Errno 2] No such file or directory" |}.

(** [n] empty lines, then [rest]. *)
Fixpoint after_lines (n : nat) (rest : string) : string :=
  match n with
  | O => rest
  | S n' => String Char.newline (after_lines n' rest)
  end.

(** [n] copies of a text, one after the other. *)
Fixpoint copies_of (n : nat) (text : string) : string :=
  match n with
  | O => EmptyString
  | S n' => text +++ copies_of n' text
  end.

(** A tree with one kernel source file of the given text, no kernel image
    and no hotspot files. *)
Definition one_file (content : string) : Env :=
  {| glob := fun pattern =>
       if String.eqb pattern "kernel/**/*.[ch]" then [main_c] else [];
     is_file := fun _ => true;
     read_text := fun file_path =>
       if String.eqb (relative file_path) (relative main_c)
       then Ok content else Raise no_such_file;
     kernel_path := kernel_elf;
     kernel_stat := None;
     run_command := fun _ => (false, "", "") |}.

(** A tree whose memory manager is one hotspot file of the given text. *)
Definition one_hotspot (content : string) : Env :=
  {| glob := fun pattern =>
       if String.eqb pattern "kernel/mm/*" then [pmm_c] else [];
     is_file := fun _ => true;
     read_text := fun file_path =>
       if String.eqb (relative file_path) (relative pmm_c)
       then Ok content else Raise no_such_file;
     kernel_path := kernel_elf;
     kernel_stat := None;
     run_command := fun _ => (false, "", "") |}.

(** A tree with one source file of three performance findings and a
    kernel image of 12 MiB whose dump shows a [.text] section of 2 MiB. *)
Definition with_kernel : Env :=
  {| glob := fun pattern =>
       if String.eqb pattern "kernel/**/*.[ch]" then [main_c] else [];
     is_file := fun _ => true;
     read_text := fun file_path =>
       if String.eqb (relative file_path) (relative main_c)
       then Ok ("p = malloc(4);" +++ after_lines 1 "strcpy(a, b);"
                +++ after_lines 1 "while (1) {")
       else Raise no_such_file;
     kernel_path := kernel_elf;
     kernel_stat := Some (12 * 1024 * 1024)%N;
     run_command := fun _ =>
       (true, "  0 .text 00200000 CONTENTS, ALLOC, LOAD, READONLY, CODE", "") |}.

(** ** Vocabulary of the further properties *)

(** A text of whitespace only. *)
Fixpoint blank (s : string) : bool :=
  match s with
  | EmptyString => true
  | String c t => Char.isspace c && blank t
  end.

(** Of two findings of one file, the first is not from a later line. *)
Definition in_line_order (f1 f2 : Finding.t) : Prop :=
  Finding.file f1 = Finding.file f2 -> Finding.line f1 <= Finding.line f2.

(** [grows r0 r]: the four sequences of [r] are those of [r0] with
    entries appended. *)
Definition grows (r0 r : OptimizationReport) : Prop :=
  (exists more, performance_issues r = performance_issues r0 ++ more)
  /\ (exists more, security_issues r = security_issues r0 ++ more)
  /\ (exists more, code_issues r = code_issues r0 ++ more)
  /\ (exists more, suggestions r = suggestions r0 ++ more).

(** One call of a method of the optimizer, from the world it starts in to
    the world it leaves. *)
Inductive calls (env : Env) (read_manifest : Path -> result string)
  : World -> World -> Prop :=
| call_log w message level :
    calls env read_manifest w (snd (log message level w))
| call_check w c file_path line_num line :
    calls env read_manifest w (snd (check c file_path line_num line w))
| call_code_quality w :
    calls env read_manifest w (snd (analyze_code_quality env w))
| call_elf_sections w objdump_output :
    calls env read_manifest w (snd (_analyze_elf_sections objdump_output w))
| call_binary_size w :
    calls env read_manifest w (snd (analyze_binary_size env w))
| call_hotspot_file w file_path description :
    calls env read_manifest w
      (snd (_analyze_hotspot_file env file_path description w))
| call_hotspots w :
    calls env read_manifest w (snd (check_performance_hotspots env w))
| call_cargo_toml w cargo_path :
    calls env read_manifest w
      (snd (_optimize_cargo_toml read_manifest cargo_path w))
| call_rust_builds w :
    calls env read_manifest w (snd (optimize_rust_builds env read_manifest w))
| call_report w :
    calls env read_manifest w (snd (generate_optimization_report w)).

(** The list [large_sections] of [_analyze_elf_sections] when its first
    loop ends: the sections to report, in the order of the dump. *)
Definition large_sections (objdump_output : string) : list (string * Z) :=
  fold_left scan_line (Str.split_on Char.newline objdump_output) [].

(** The size of the section, in KB, is a number a float can hold. *)
Definition renders (section : string * Z) : Prop :=
  Num.int_div_1024 (snd section) <> None.

(** The suggestion is the one the analyzer makes for the section. *)
Definition describes (s : Suggestion.t) (section : string * Z) : Prop :=
  Suggestion.category s = "binary_size"
  /\ Suggestion.impact s = "medium"
  /\ Suggestion.suggestion s
     = "Investigate if " +++ fst section +++ " can be optimized or compressed"
  /\ exists kb,
       Suggestion.issue s = "Large section " +++ fst section +++ ": " +++ kb +++ "KB".

(** [suggests m bound P]: [m] returns, and all it does to the report is to
    append at most [bound] suggestions, each with the property [P]. *)
Definition suggests (m : M unit) (bound : nat) (P : Suggestion.t -> Prop)
  : Prop :=
  forall w,
    fst (m w) = Ok tt
    /\ exists new,
         report (snd (m w)) = suggest new (report w)
         /\ List.length new <= bound
         /\ Forall P new.

(** The entries the hotspot sweep looks at, in order: for each of its four
    patterns, what the pattern followed by a star matches. *)
Definition hotspot_entries (env : Env) : list Path :=
  flat_map (fun pattern => glob env (pattern +++ "*"))
    ["kernel/mm/"; "kernel/core/scheduler.c"; "kernel/core/syscalls.c";
     "kernel/core/ipc.c"].

Definition performance_advice (s : Suggestion.t) : Prop :=
  Suggestion.category s = "performance"
  /\ (Suggestion.impact s = "medium" \/ Suggestion.impact s = "high").

Definition rust_advice (s : Suggestion.t) : Prop :=
  Suggestion.category s = "rust_optimization"
  /\ (Suggestion.impact s = "medium" \/ Suggestion.impact s = "low").

(** The line [log] prints for a warning, at the time the clock shows. *)
Definition warning_line (w : World) (message : string) : output :=
  Text (Colors.WARNING +++ "[" +++ clock w (ticks w) +++ "] [WARNING]"
        +++ Colors.ENDC +++ " " +++ message).

(** The marker of the abort-on-panic policy in a manifest. *)
Definition panic_abort : string := "panic = " +++ Rules.q +++ "abort" +++ Rules.q.

(** A manifest with a release profile and no panic policy. *)
Definition sample_manifest : string :=
  "[package]" +++ after_lines 1 "name = " +++ Rules.q +++ "orion" +++ Rules.q
  +++ after_lines 1 "[profile.release]" +++ after_lines 1 "lto = true".

Definition cargo_toml : Path :=
  {| full := "/orion/drivers/Cargo.toml"; relative := "drivers/Cargo.toml";
     name := "Cargo.toml" |}.

(** The keys of a list in the order each is first seen. *)
Definition first_seen (keys : list string) : list string :=
  fold_left (fun seen key =>
               if existsb (String.eqb key) seen then seen else seen ++ [key])
            keys [].

Definition in_category (category : string) (s : Suggestion.t) : bool :=
  String.eqb (Suggestion.category s) category.


Definition suggestion_block_in (o : output)
  : option (Dict.t (list (string * string))) :=
  match o with
  | SuggestionBlock by_category => Some by_category
  | _ => None
  end.


(** [quiet m]: whatever [m] prints is a line of the log. *)
Definition quiet {A} (m : M A) : Prop :=
  forall w, exists lines, stdout (snd (m w)) = stdout w ++ map Text lines.

(** The three rule tables find nothing in the tree. *)
Definition clean_tree (env : Env) : Prop :=
  tree_findings env Rules.performance "medium" = []
  /\ tree_findings env Rules.security "high" = []
  /\ tree_findings env Rules.quality "low" = [].

(** The sizes the binary analysis meets can be rendered: the kernel image
    has the size of a file, and so has every large section of the dump the
    analysis reads. *)
Definition sizes_render (env : Env) : Prop :=
  forall size, kernel_stat env = Some size ->
    (size < 2 ^ 63)%N
    /\ forall out err,
         run_command env ["objdump"; "-h"; full (kernel_path env)]
         = (true, out, err) ->
         Forall renders (large_sections out).

(** ** The patterns *)

(** Every pattern of the optimizer is in the fragment. *)
Lemma patterns_compile :
  Forall (fun pattern => Re.compile pattern <> None)
         (map fst (Rules.performance ++ Rules.security ++ Rules.quality)
          ++ [Rules.loops; Rules.allocations; Rules.locks]).
Proof. repeat (constructor; [vm_compute; discriminate |]). constructor. Qed.

Example gets_pattern :
  Re.compile "\bgets\s*\("
  = Some (Re.seq [Re.Boundary; Re.Lit "gets"; Re.Star (Re.In [Re.Space]);
                  Re.Lit "("]).
Proof. reflexivity. Qed.

Example volatile_pattern :
  Re.compile "\bvolatile\s+(?!atomic)"
  = Some (Re.seq [Re.Boundary; Re.Lit "volatile"; Re.Plus (Re.In [Re.Space]);
                  Re.NotAhead (Re.Lit "atomic")]).
Proof. reflexivity. Qed.

Example magic_number_pattern :
  Re.compile "[^\w]0x[0-9a-fA-F]+[^\w]"
  = Some (Re.seq [Re.NotIn [Re.Word]; Re.Lit "0x";
                  Re.Plus (Re.In [Re.Range "0" "9"; Re.Range "a" "f";
                                  Re.Range "A" "F"]);
                  Re.NotIn [Re.Word]]).
Proof. reflexivity. Qed.

Example locks_pattern :
  Re.compile Rules.locks
  = Some (Re.seq [Re.Boundary;
                  Re.alt [Re.Lit "spin_lock"; Re.Lit "mutex_lock"; Re.Lit "lock"];
                  Re.Star (Re.In [Re.Space]); Re.Lit "("]).
Proof. reflexivity. Qed.

(** ** The monad: how the report evolves *)

Lemma evolves_ret : evolves (ret tt) (fun r => r).
Proof. intros w; cbn; auto. Qed.

Lemma evolves_log message level : evolves (log message level) (fun r => r).
Proof. intros w; cbn; auto. Qed.

Lemma evolves_update f : evolves (update_report f) f.
Proof. intros w; cbn; auto. Qed.

Lemma evolves_ext m f g : evolves m f -> (forall r, f r = g r) -> evolves m g.
Proof. intros H E w. rewrite <- E. apply H. Qed.

Lemma evolves_seq m k f g :
  evolves m f -> evolves k g -> evolves (m ;; k) (fun r => g (f r)).
Proof.
  intros Hm Hk w. unfold bind. destruct (Hm w) as (Hv & Hr & Hc).
  destruct (m w) as [[[] | e] w']; cbn in Hv, Hr, Hc; [| discriminate].
  destruct (Hk w') as (Hv' & Hr' & Hc'). now rewrite Hv', Hr', Hc', Hr, Hc.
Qed.

Lemma evolves_when (b : bool) m f :
  evolves m f -> evolves (when b m) (fun r => if b then f r else r).
Proof.
  intros H. destruct b; cbn; [exact H | apply evolves_ret].
Qed.

Lemma evolves_for {A} (xs : list A) (body : A -> M unit) f :
  (forall x, evolves (body x) (f x)) ->
  evolves (for_each xs body) (fun r => fold_left (fun r x => f x r) xs r).
Proof.
  intros Hb. induction xs as [| x xs IH]; cbn.
  - apply evolves_ret.
  - apply (evolves_ext _ _ _ (evolves_seq _ _ _ _ (Hb x) IH)). reflexivity.
Qed.

(** What [evolves] says about one run. *)
Lemma evolves_run m f w :
  evolves m f ->
  fst (m w) = Ok tt /\ report (snd (m w)) = f (report w)
  /\ clock (snd (m w)) = clock w.
Proof. intros H. exact (H w). Qed.

(** ** The rule loops *)

Lemma extend_nil r : extend [] [] [] r = r.
Proof. destruct r; unfold extend; cbn. now rewrite !app_nil_r. Qed.

Lemma extend_extend p s q p' s' q' r :
  extend p' s' q' (extend p s q r) = extend (p ++ p') (s ++ s') (q ++ q') r.
Proof. unfold extend; cbn. now rewrite !app_assoc. Qed.

Lemma suggest_nil r : suggest [] r = r.
Proof. destruct r; unfold suggest; cbn. now rewrite app_nil_r. Qed.

Lemma suggest_suggest a b r : suggest b (suggest a r) = suggest (a ++ b) r.
Proof. unfold suggest; cbn. now rewrite app_assoc. Qed.

(** The loop over a rule table, for any way of adding a finding that
    [grow] describes on lists of findings. *)
Lemma rule_loop (rules : list Rules.rule) (line_clean : string)
  (mk : string -> Finding.t)
  (add : Finding.t -> OptimizationReport -> OptimizationReport)
  (grow : list Finding.t -> OptimizationReport -> OptimizationReport) :
  (forall r, grow [] r = r) ->
  (forall fs f r, add f (grow fs r) = grow (fs ++ [f]) r) ->
  evolves
    (for_each rules (fun '(pattern, suggestion) =>
       when (Re.search pattern line_clean) (update_report (add (mk suggestion)))))
    (grow (map (fun x => mk (snd x)) (matching rules line_clean))).
Proof.
  intros Hnil Hadd.
  eapply evolves_ext.
  - apply evolves_for with
      (f := fun x r => if Re.search (fst x) line_clean then add (mk (snd x)) r else r).
    intros [pattern suggestion]. cbn. apply evolves_when, evolves_update.
  - intros r.
    assert (G : forall acc,
               fold_left (fun r x => if Re.search (fst x) line_clean
                                     then add (mk (snd x)) r else r)
                         rules (grow acc r)
               = grow (acc ++ map (fun x => mk (snd x)) (matching rules line_clean)) r).
    { unfold matching.
      induction rules as [| [pat sug] rules IH]; intros acc; cbn.
      - now rewrite app_nil_r.
      - destruct (Re.search pat line_clean) eqn:E; cbn.
        + rewrite Hadd, IH, <- app_assoc. reflexivity.
        + apply IH. }
    specialize (G []). rewrite Hnil in G. exact G.
Qed.

Lemma check_performance_evolves file_path line_num line :
  evolves (_check_performance_patterns file_path line_num line)
          (extend (findings_of Rules.performance "medium" file_path line_num line) [] []).
Proof.
  unfold _check_performance_patterns, findings_of.
  apply rule_loop
    with (mk := fun s => Finding.make (relative file_path) line_num (Str.strip line) s "medium")
         (grow := fun fs => extend fs [] []).
  - apply extend_nil.
  - intros fs f r. unfold extend, add_performance_issue; cbn.
    now rewrite !app_nil_r, app_assoc.
Qed.

Lemma check_security_evolves file_path line_num line :
  evolves (_check_security_patterns file_path line_num line)
          (extend [] (findings_of Rules.security "high" file_path line_num line) []).
Proof.
  unfold _check_security_patterns, findings_of.
  apply rule_loop
    with (mk := fun s => Finding.make (relative file_path) line_num (Str.strip line) s "high")
         (grow := fun fs => extend [] fs []).
  - apply extend_nil.
  - intros fs f r. unfold extend, add_security_issue; cbn.
    now rewrite !app_nil_r, app_assoc.
Qed.

Lemma check_quality_evolves file_path line_num line :
  evolves (_check_quality_patterns file_path line_num line)
          (extend [] [] (findings_of Rules.quality "low" file_path line_num line)).
Proof.
  unfold _check_quality_patterns, findings_of.
  apply rule_loop
    with (mk := fun s => Finding.make (relative file_path) line_num (Str.strip line) s "low")
         (grow := fun fs => extend [] [] fs).
  - apply extend_nil.
  - intros fs f r. unfold extend, add_code_issue; cbn.
    now rewrite !app_nil_r, app_assoc.
Qed.

(** ** The tree scan *)

Lemma fold_extend {A} (p s q : A -> list Finding.t) (xs : list A) r :
  fold_left (fun r x => extend (p x) (s x) (q x) r) xs r
  = extend (flat_map p xs) (flat_map s xs) (flat_map q xs) r.
Proof.
  revert r. induction xs as [| x xs IH]; intros r; cbn.
  - now rewrite extend_nil.
  - now rewrite IH, extend_extend.
Qed.

Lemma evolves_try m h f : evolves m f -> evolves (try_except m h) f.
Proof.
  intros H w. destruct (H w) as (Hv & Hr & Hc). unfold try_except.
  destruct (m w) as [[a | e] w']; cbn in *; [auto | discriminate].
Qed.

Lemma line_evolves file_path line_num line :
  evolves
    (_check_performance_patterns file_path line_num line ;;
     _check_security_patterns file_path line_num line ;;
     _check_quality_patterns file_path line_num line)
    (extend (findings_of Rules.performance "medium" file_path line_num line)
            (findings_of Rules.security "high" file_path line_num line)
            (findings_of Rules.quality "low" file_path line_num line)).
Proof.
  eapply evolves_ext.
  - apply evolves_seq; [apply check_performance_evolves |].
    apply evolves_seq; [apply check_security_evolves | apply check_quality_evolves].
  - intros r. cbn. rewrite !extend_extend. cbn. now rewrite !app_nil_r.
Qed.

Lemma lines_evolves file_path content :
  evolves
    (for_each (enumerate 1 (Str.split_on Char.newline content))
       (fun '(line_num, line) =>
          _check_performance_patterns file_path line_num line ;;
          _check_security_patterns file_path line_num line ;;
          _check_quality_patterns file_path line_num line))
    (extend (file_findings Rules.performance "medium" file_path content)
            (file_findings Rules.security "high" file_path content)
            (file_findings Rules.quality "low" file_path content)).
Proof.
  eapply evolves_ext.
  - apply evolves_for with
      (f := fun nl => extend
              (findings_of Rules.performance "medium" file_path (fst nl) (snd nl))
              (findings_of Rules.security "high" file_path (fst nl) (snd nl))
              (findings_of Rules.quality "low" file_path (fst nl) (snd nl))).
    intros [line_num line]. apply line_evolves.
  - intros r. apply fold_extend.
Qed.

(** The findings of one file under each table; none when it cannot be
    read. *)
Lemma file_evolves env file_path (loop : string -> M unit) (handler : exn -> M unit)
  (f : string -> OptimizationReport -> OptimizationReport) :
  (forall content, evolves (loop content) (f content)) ->
  (forall e, evolves (handler e) (fun r => r)) ->
  evolves
    (try_except (content <- call (read_text env file_path) ;; loop content) handler)
    (fun r => match read_text env file_path with
              | Ok content => f content r
              | Raise _ => r
              end).
Proof.
  intros Hl Hh. destruct (read_text env file_path) as [content | e].
  - apply evolves_try. intros w. apply (Hl content w).
  - intros w. apply (Hh e w).
Qed.

Theorem analyze_code_quality_evolves env :
  evolves (analyze_code_quality env)
          (extend (tree_findings env Rules.performance "medium")
                  (tree_findings env Rules.security "high")
                  (tree_findings env Rules.quality "low")).
Proof.
  unfold analyze_code_quality. eapply evolves_ext.
  - apply evolves_seq; [apply evolves_log |].
    apply evolves_for with
      (f := fun file_path =>
              extend
                (match read_text env file_path with
                 | Ok c => file_findings Rules.performance "medium" file_path c
                 | Raise _ => [] end)
                (match read_text env file_path with
                 | Ok c => file_findings Rules.security "high" file_path c
                 | Raise _ => [] end)
                (match read_text env file_path with
                 | Ok c => file_findings Rules.quality "low" file_path c
                 | Raise _ => [] end)).
    intros file_path. eapply evolves_ext.
    + apply file_evolves with
        (f := fun content =>
                extend (file_findings Rules.performance "medium" file_path content)
                       (file_findings Rules.security "high" file_path content)
                       (file_findings Rules.quality "low" file_path content)).
      * intros content. apply lines_evolves.
      * intros e. apply evolves_log.
    + intros r. cbn. destruct (read_text env file_path); [reflexivity |].
      now rewrite extend_nil.
  - intros r. cbn. apply fold_extend.
Qed.

(** ** Invariants of the report *)

Lemma preserves_ret {A} I (a : A) : preserves I (ret a).
Proof. intros w H; exact H. Qed.

Lemma preserves_raise {A} I e : preserves I (@raise A e).
Proof. intros w H; exact H. Qed.

Lemma preserves_call {A} I (x : result A) : preserves I (call x).
Proof. intros w H; exact H. Qed.

Lemma preserves_print I o : preserves I (print o).
Proof. intros w H; exact H. Qed.

Lemma preserves_get I : preserves I get_report.
Proof. intros w H; exact H. Qed.

Lemma preserves_log I message level : preserves I (log message level).
Proof. intros w H; exact H. Qed.

Lemma preserves_update (I : OptimizationReport -> Prop) f :
  (forall r, I r -> I (f r)) -> preserves I (update_report f).
Proof. intros Hf w H; cbn. auto. Qed.

Lemma preserves_bind {A B} I (m : M A) (f : A -> M B) :
  preserves I m -> (forall a, preserves I (f a)) -> preserves I (bind m f).
Proof.
  intros Hm Hf w H. unfold bind. specialize (Hm w H).
  destruct (m w) as [[a | e] w']; cbn in *; [apply Hf; exact Hm | exact Hm].
Qed.

Lemma preserves_try {A} I (m : M A) h :
  preserves I m -> (forall e, preserves I (h e)) -> preserves I (try_except m h).
Proof.
  intros Hm Hh w H. unfold try_except. specialize (Hm w H).
  destruct (m w) as [[a | e] w']; cbn in *; [exact Hm | apply Hh; exact Hm].
Qed.

Lemma preserves_when I b m : preserves I m -> preserves I (when b m).
Proof. destruct b; cbn; auto using preserves_ret. Qed.

Lemma preserves_for {A} I (xs : list A) body :
  (forall x, preserves I (body x)) -> preserves I (for_each xs body).
Proof.
  intros Hb. induction xs; cbn; auto using preserves_ret, preserves_bind.
Qed.

(** A method that changes the report by [f] keeps what [f] keeps. *)
Lemma preserves_evolves (I : OptimizationReport -> Prop) m f :
  evolves m f -> (forall r, I r -> I (f r)) -> preserves I m.
Proof.
  intros Hm Hf w H. destruct (Hm w) as (_ & Hr & _). cbn in Hr.
  rewrite Hr. apply Hf, H.
Qed.

Create HintDb preserve.

#[local] Hint Resolve preserves_ret preserves_raise preserves_call
  preserves_print preserves_get preserves_log preserves_bind preserves_try
  preserves_when preserves_for : preserve.

(** The analyzers and the report only touch the suggestions and the metrics;
    [I] is any property of the three sequences of findings. *)
Section FindingsOnly.
Variable I : OptimizationReport -> Prop.
Hypothesis I_suggestion : forall s r, I r -> I (add_suggestion s r).
Hypothesis I_metric : forall k v r, I r -> I (set_metric k v r).

Lemma preserves_fmt (x : option Num.float) (g : Num.float -> string) :
  preserves I (match x with Some y => ret (g y) | None => raise overflow end).
Proof. destruct x; auto with preserve. Qed.

Lemma elf_sections_preserves objdump_output :
  preserves I (_analyze_elf_sections objdump_output).
Proof.
  unfold _analyze_elf_sections. apply preserves_for. intros [section_name size].
  apply preserves_bind; [apply preserves_fmt |].
  intros kb. apply preserves_update. auto.
Qed.

Lemma binary_size_preserves env : preserves I (analyze_binary_size env).
Proof.
  unfold analyze_binary_size. apply preserves_bind; [apply preserves_log |].
  intros _. destruct (kernel_stat env) as [kernel_size |]; [| apply preserves_ret].
  apply preserves_bind; [apply preserves_update; auto |]. intros _.
  apply preserves_bind.
  - apply preserves_when, preserves_bind; [apply preserves_fmt |].
    intros mb. apply preserves_update. auto.
  - intros _. destruct (run_command env _) as [[success out] err].
    apply preserves_when, elf_sections_preserves.
Qed.

Lemma hotspot_file_preserves env file_path description :
  preserves I (_analyze_hotspot_file env file_path description).
Proof.
  unfold _analyze_hotspot_file. apply preserves_try; [| auto with preserve].
  apply preserves_bind; [apply preserves_call |]. intros content.
  repeat (apply preserves_bind; [| intros _]);
    apply preserves_when, preserves_update; auto.
Qed.

Lemma hotspots_preserves env : preserves I (check_performance_hotspots env).
Proof.
  unfold check_performance_hotspots.
  apply preserves_bind; [apply preserves_log |]. intros _.
  apply preserves_for. intros [pattern description].
  apply preserves_for. intros file_path.
  apply preserves_when, hotspot_file_preserves.
Qed.

Lemma report_preserves : preserves I generate_optimization_report.
Proof.
  unfold generate_optimization_report.
  repeat first
    [ apply preserves_log | apply preserves_print | apply preserves_get
    | apply preserves_when | apply preserves_fmt
    | apply preserves_bind; [| intros ?]
    | apply preserves_for; intros [? ?]
    | match goal with |- preserves _ (if ?b then _ else _) => destruct b end ].
Qed.

End FindingsOnly.

(** ** C2: severity is fixed by the category *)

Lemma severity_fixed_extend perf sec qual r :
  severity_fixed r ->
  Forall (fun f => Finding.severity f = "medium") perf ->
  Forall (fun f => Finding.severity f = "high") sec ->
  Forall (fun f => Finding.severity f = "low") qual ->
  severity_fixed (extend perf sec qual r).
Proof.
  intros (Hs & Hp & Hq) Hp' Hs' Hq'. unfold severity_fixed, extend; cbn.
  repeat split; apply Forall_app; auto.
Qed.

Lemma findings_of_severity rules severity file_path line_num line :
  Forall (fun f => Finding.severity f = severity)
         (findings_of rules severity file_path line_num line).
Proof.
  unfold findings_of. apply Forall_forall. intros f Hf.
  apply in_map_iff in Hf. destruct Hf as (r & <- & _). reflexivity.
Qed.

Lemma file_findings_severity rules severity file_path content :
  Forall (fun f => Finding.severity f = severity)
         (file_findings rules severity file_path content).
Proof.
  unfold file_findings. apply Forall_flat_map, Forall_forall. intros nl _.
  apply findings_of_severity.
Qed.

Lemma tree_findings_severity env rules severity :
  Forall (fun f => Finding.severity f = severity)
         (tree_findings env rules severity).
Proof.
  unfold tree_findings. apply Forall_flat_map, Forall_forall. intros fp _.
  destruct (read_text env fp); [apply file_findings_severity | constructor].
Qed.

(** C2. In every world the optimizer can reach from a fresh one by any of
    its methods, on any lines and files, every security finding has
    severity "high", every performance finding "medium" and every quality
    finding "low". *)
Theorem C2_severity_fixed_by_category env w :
  reachable env w -> severity_fixed (report w).
Proof.
  induction 1 as [time | w fp n l _ IH | w fp n l _ IH | w fp n l _ IH
                 | w _ IH | w o _ IH | w _ IH | w fp d _ IH | w _ IH | w _ IH].
  - repeat split; constructor.
  - revert w IH. eapply preserves_evolves; [apply check_performance_evolves |].
    intros r Hr. apply severity_fixed_extend;
      auto using findings_of_severity.
  - revert w IH. eapply preserves_evolves; [apply check_security_evolves |].
    intros r Hr. apply severity_fixed_extend;
      auto using findings_of_severity.
  - revert w IH. eapply preserves_evolves; [apply check_quality_evolves |].
    intros r Hr. apply severity_fixed_extend;
      auto using findings_of_severity.
  - revert w IH. eapply preserves_evolves; [apply analyze_code_quality_evolves |].
    intros r Hr. apply severity_fixed_extend;
      auto using tree_findings_severity.
  - revert w IH. apply elf_sections_preserves; auto.
  - revert w IH. apply binary_size_preserves; auto.
  - revert w IH. apply hotspot_file_preserves; auto.
  - revert w IH. apply hotspots_preserves; auto.
  - revert w IH. apply report_preserves; auto.
Qed.

(** ** The checking methods, by category *)

Lemma check_appends c file_path line_num line w :
  fst (check c file_path line_num line w) = Ok tt
  /\ issues c (report (snd (check c file_path line_num line w)))
     = issues c (report w)
       ++ findings_of (table c) (severity_of c) file_path line_num line.
Proof.
  destruct c; cbn [check table severity_of issues].
  - destruct (evolves_run _ _ w (check_performance_evolves file_path line_num line))
      as (Hv & Hr & _).
    rewrite Hv, Hr. auto.
  - destruct (evolves_run _ _ w (check_security_evolves file_path line_num line))
      as (Hv & Hr & _).
    rewrite Hv, Hr. auto.
  - destruct (evolves_run _ _ w (check_quality_evolves file_path line_num line))
      as (Hv & Hr & _).
    rewrite Hv, Hr. auto.
Qed.

(** ** C4: the text a finding records *)

(** C4, as stated, fails: for the line [    gets(buffer);] the security
    finding records [gets(buffer);], without the four leading blanks. *)
Lemma C4_raw_text_verbatim_counterexample :
  let line := "    gets(buffer);" in
  let w := snd (_check_security_patterns main_c 42 line (fresh noon)) in
  exists f, In f (security_issues (report w)) /\ Finding.issue f <> line.
Proof.
  cbv zeta. eexists. split.
  - vm_compute. left. reflexivity.
  - cbn. discriminate.
Qed.

(** C4, amended. For every line and every category, the checking method
    returns and appends one finding per matching rule, and each of them
    records the line with its leading and trailing whitespace stripped,
    together with the file and the line number it was given. *)
Theorem C4_raw_text_is_stripped_line c file_path line_num line w :
  fst (check c file_path line_num line w) = Ok tt
  /\ exists new,
       issues c (report (snd (check c file_path line_num line w)))
       = issues c (report w) ++ new
       /\ List.length new = List.length (matching (table c) (Str.strip line))
       /\ Forall (fun f => Finding.issue f = Str.strip line
                           /\ Finding.line f = line_num
                           /\ Finding.file f = relative file_path) new.
Proof.
  destruct (check_appends c file_path line_num line w) as (Hv & Hr).
  split; [exact Hv |].
  exists (findings_of (table c) (severity_of c) file_path line_num line).
  split; [exact Hr |]. unfold findings_of. split.
  - apply length_map.
  - apply Forall_forall. intros f Hf. apply in_map_iff in Hf.
    destruct Hf as (r & <- & _). cbn. auto.
Qed.

(** ** C8: every matching rule gives its own finding *)

Lemma advisories_distinct c : NoDup (map snd (table c)).
Proof.
  destruct c; cbn;
    repeat (constructor; [cbn; intuition discriminate |]); constructor.
Qed.

Lemma matching_app rules1 rules2 line_clean :
  matching (rules1 ++ rules2) line_clean
  = matching rules1 line_clean ++ matching rules2 line_clean.
Proof. apply filter_app. Qed.

Lemma matching_hit r rules line_clean :
  Re.search (fst r) line_clean = true ->
  matching (r :: rules) line_clean = r :: matching rules line_clean.
Proof. intros H. unfold matching. cbn. now rewrite H. Qed.

(** C8. When two rules of a category's table, [r1] standing before [r2],
    both match a line, the checking method of the category appends a
    finding for [r1] and, after it, another finding for [r2]; the two
    differ. *)
Theorem C8_rules_do_not_short_circuit c file_path line_num line w
  before r1 between r2 after :
  table c = before ++ r1 :: between ++ r2 :: after ->
  Re.search (fst r1) (Str.strip line) = true ->
  Re.search (fst r2) (Str.strip line) = true ->
  exists x y z f1 f2,
    issues c (report (snd (check c file_path line_num line w)))
    = issues c (report w) ++ x ++ f1 :: y ++ f2 :: z
    /\ Finding.suggestion f1 = snd r1
    /\ Finding.suggestion f2 = snd r2
    /\ f1 <> f2.
Proof.
  intros Ht H1 H2.
  destruct (check_appends c file_path line_num line w) as (_ & Hr).
  set (mk := fun r : Rules.rule =>
               {| Finding.file := relative file_path;
                  Finding.line := line_num;
                  Finding.issue := Str.strip line;
                  Finding.suggestion := snd r;
                  Finding.severity := severity_of c |}).
  exists (map mk (matching before (Str.strip line))),
         (map mk (matching between (Str.strip line))),
         (map mk (matching after (Str.strip line))), (mk r1), (mk r2).
  repeat split.
  - rewrite Hr. f_equal. unfold findings_of. fold mk. rewrite Ht.
    rewrite matching_app, (matching_hit r1), matching_app, (matching_hit r2)
      by assumption.
    rewrite map_app. cbn [map]. rewrite map_app. reflexivity.
  - intros E. assert (Es : snd r1 = snd r2) by (injection E; auto).
    pose proof (advisories_distinct c) as Hn. rewrite Ht in Hn.
    rewrite map_app in Hn. cbn [map] in Hn. apply NoDup_remove_2 in Hn.
    apply Hn. apply in_or_app. right. rewrite map_app. apply in_or_app.
    right. left. symmetry. exact Es.
Qed.

(** An instance of C8: [strcpy(a, malloc(3));] matches the malloc rule and
    the strcpy rule of the performance table. *)
Lemma C8_rules_do_not_short_circuit_witness :
  exists x y z f1 f2,
    issues Performance
      (report (snd (check Performance main_c 7 "strcpy(a, malloc(3));" (fresh noon))))
    = issues Performance (report (fresh noon)) ++ x ++ f1 :: y ++ f2 :: z
    /\ Finding.suggestion f1 = "Use kmalloc instead of malloc in kernel code"
    /\ Finding.suggestion f2 = "strcpy is unsafe, use strncpy"
    /\ f1 <> f2.
Proof.
  apply (C8_rules_do_not_short_circuit Performance main_c 7
           "strcpy(a, malloc(3));" (fresh noon)
           []
           ("\bmalloc\s*\(", "Use kmalloc instead of malloc in kernel code")
           [("\bsprintf\s*\(", "sprintf is unsafe, use snprintf")]
           ("\bstrcpy\s*\(", "strcpy is unsafe, use strncpy")
           (skipn 3 Rules.performance)).
  - reflexivity.
  - vm_compute. reflexivity.
  - vm_compute. reflexivity.
Defined.

(** An instance of C2: the world after the scan of a tree whose one file
    holds a line for each category. *)
Lemma C2_severity_fixed_by_category_witness :
  let env := one_file "  gets(b); x = malloc(0x10); // TODO" in
  let w := snd (analyze_code_quality env (fresh noon)) in
  reachable env w /\ severity_fixed (report w).
Proof.
  cbv zeta. split.
  - apply reach_code_quality, reach_fresh.
  - apply (C2_severity_fixed_by_category
             (one_file "  gets(b); x = malloc(0x10); // TODO")).
    apply reach_code_quality, reach_fresh.
Defined.

(** ** C6: [gets] at line 42 *)

Lemma enumerate_nth {A} (xs : list A) start i x :
  nth_error xs i = Some x -> In (start + i, x) (enumerate start xs).
Proof.
  revert start i. induction xs as [| y xs IH]; intros start [| i] H; cbn in *;
    try discriminate.
  - injection H as ->. left. f_equal. lia.
  - right. replace (start + S i) with (S start + i) by lia. now apply IH.
Qed.

(** C6. When a file that the scan visits and can read has the line
    [    gets(buffer);] as its line 42, the scan returns and the report
    then holds a security finding for that file with line number 42, the
    advisory "gets() is unsafe, use fgets()" and severity "high". *)
Theorem C6_gets_at_line_42 env file_path content w :
  In file_path (c_files env) ->
  read_text env file_path = Ok content ->
  nth_error (Str.split_on Char.newline content) 41 = Some "    gets(buffer);" ->
  fst (analyze_code_quality env w) = Ok tt
  /\ exists f,
       In f (security_issues (report (snd (analyze_code_quality env w))))
       /\ Finding.file f = relative file_path
       /\ Finding.line f = 42
       /\ Str.contains "gets() is unsafe, use fgets()" (Finding.suggestion f) = true
       /\ Finding.severity f = "high".
Proof.
  intros Hin Hread Hline.
  destruct (evolves_run _ _ w (analyze_code_quality_evolves env)) as (Hv & Hr & _).
  split; [exact Hv |]. rewrite Hr.
  exists {| Finding.file := relative file_path;
            Finding.line := 42;
            Finding.issue := "gets(buffer);";
            Finding.suggestion := "gets() is unsafe, use fgets()";
            Finding.severity := "high" |}.
  split; [| repeat split].
  cbn [extend security_issues]. apply in_or_app. right.
  unfold tree_findings. apply in_flat_map. exists file_path.
  split; [exact Hin |]. rewrite Hread.
  unfold file_findings. apply in_flat_map.
  exists (42, "    gets(buffer);"). split.
  - apply (enumerate_nth _ 1 41), Hline.
  - cbn [fst snd]. left. reflexivity.
Qed.

(** An instance of C6: a file of 41 empty lines and then the call. *)
Lemma C6_gets_at_line_42_witness :
  let env := one_file (after_lines 41 "    gets(buffer);") in
  fst (analyze_code_quality env (fresh noon)) = Ok tt
  /\ exists f,
       In f (security_issues (report (snd (analyze_code_quality env (fresh noon)))))
       /\ Finding.file f = "kernel/core/main.c"
       /\ Finding.line f = 42
       /\ Str.contains "gets() is unsafe, use fgets()" (Finding.suggestion f) = true
       /\ Finding.severity f = "high".
Proof.
  apply (C6_gets_at_line_42 (one_file (after_lines 41 "    gets(buffer);"))
           main_c (after_lines 41 "    gets(buffer);") (fresh noon)).
  - left. reflexivity.
  - reflexivity.
  - vm_compute. reflexivity.
Defined.

(** ** C7: a section dump with a malformed line *)

Lemma scan_plain large_sections line :
  Str.contains "CONTENTS" line = false ->
  scan_line large_sections line = large_sections.
Proof. intros H. unfold scan_line. now rewrite H. Qed.

Lemma scan_plain_lines lines large_sections :
  Forall (fun l => Str.contains "CONTENTS" l = false) lines ->
  fold_left scan_line lines large_sections = large_sections.
Proof.
  intros H. revert large_sections.
  induction H as [| l ls Hl _ IH]; intros acc; cbn; [reflexivity |].
  now rewrite scan_plain, IH.
Qed.

Lemma scan_large large_sections line idx section_name size_hex rest size :
  Str.contains "CONTENTS" line = true ->
  Str.split_ws line = idx :: section_name :: size_hex :: rest ->
  Num.int16 size_hex = Some size ->
  (1024 * 1024 < size)%Z ->
  scan_line large_sections line = large_sections ++ [(section_name, size)].
Proof.
  intros Hm Hp Hs Hb. unfold scan_line, section_of. rewrite Hm, Hp.
  cbn [List.length Nat.leb nth_error]. rewrite Hs.
  apply Z.ltb_lt in Hb. now rewrite Hb.
Qed.

Lemma scan_malformed large_sections line :
  (List.length (Str.split_ws line) < 3
   \/ exists size_hex, nth_error (Str.split_ws line) 2 = Some size_hex
                       /\ Num.int16 size_hex = None) ->
  scan_line large_sections line = large_sections.
Proof.
  intros H. unfold scan_line, section_of.
  destruct (Str.contains "CONTENTS" line); [| reflexivity].
  destruct H as [H | (size_hex & Hn & Hi)].
  - apply Nat.leb_gt in H. now rewrite H.
  - rewrite Hn, Hi.
    destruct (3 <=? _); [| reflexivity].
    now destruct (nth_error (Str.split_ws line) 1).
Qed.

(** C7. Take a section dump in which exactly two lines carry the marker
    CONTENTS: a well-formed one, whose second field names a section and
    whose third field is a hexadecimal number worth 2 MiB, and a malformed
    one, which has fewer than three fields or a third field that is not a
    hexadecimal number; the two may come in either order. The analyzer
    returns, and appends exactly one suggestion, of medium impact, naming
    the section of the well-formed line. *)
Theorem C7_malformed_line_is_skipped objdump_output w
  pre good mid bad post idx section_name size_hex rest :
  (Str.split_on Char.newline objdump_output = pre ++ good :: mid ++ bad :: post
   \/ Str.split_on Char.newline objdump_output = pre ++ bad :: mid ++ good :: post) ->
  Forall (fun l => Str.contains "CONTENTS" l = false) (pre ++ mid ++ post) ->
  Str.contains "CONTENTS" good = true ->
  Str.split_ws good = idx :: section_name :: size_hex :: rest ->
  Num.int16 size_hex = Some (2 * 1024 * 1024)%Z ->
  Str.contains "CONTENTS" bad = true ->
  (List.length (Str.split_ws bad) < 3
   \/ exists field, nth_error (Str.split_ws bad) 2 = Some field
                    /\ Num.int16 field = None) ->
  fst (_analyze_elf_sections objdump_output w) = Ok tt
  /\ suggestions (report (snd (_analyze_elf_sections objdump_output w)))
     = suggestions (report w)
       ++ [{| Suggestion.category := "binary_size";
              Suggestion.issue := "Large section " +++ section_name
                                  +++ ": 2048.0KB";
              Suggestion.suggestion := "Investigate if " +++ section_name
                                       +++ " can be optimized or compressed";
              Suggestion.impact := "medium" |}].
Proof.
  intros Hlines Hplain Hgood Hparts Hsize _ Hbad.
  apply Forall_app in Hplain. destruct Hplain as (Hpre & Hrest).
  apply Forall_app in Hrest. destruct Hrest as (Hmid & Hpost).
  assert (Hscan : fold_left scan_line (Str.split_on Char.newline objdump_output) []
                  = [(section_name, (2 * 1024 * 1024)%Z)]).
  { destruct Hlines as [-> | ->];
      rewrite fold_left_app, (scan_plain_lines pre) by assumption;
      cbn [fold_left].
    - rewrite (scan_large [] good idx section_name size_hex rest _ Hgood Hparts Hsize)
        by reflexivity.
      rewrite fold_left_app, (scan_plain_lines mid) by assumption.
      cbn [fold_left].
      rewrite (scan_malformed _ bad Hbad). now apply scan_plain_lines.
    - rewrite (scan_malformed _ bad Hbad).
      rewrite fold_left_app, (scan_plain_lines mid) by assumption.
      cbn [fold_left].
      rewrite (scan_large [] good idx section_name size_hex rest _ Hgood Hparts Hsize)
        by reflexivity.
      now apply scan_plain_lines. }
  unfold _analyze_elf_sections. rewrite Hscan. cbn. auto.
Qed.

(** An instance of C7: a [.text] section of 0x200000 bytes, and a line
    whose size field reads [zzzz]. *)
Lemma C7_malformed_line_is_skipped_witness :
  let dump :=
    after_lines 1 "Idx Name Size" +++ after_lines 1
      "  0 .text 00200000 CONTENTS, ALLOC, LOAD" +++ after_lines 1
      "  1 .data zzzz CONTENTS, ALLOC" in
  fst (_analyze_elf_sections dump (fresh noon)) = Ok tt
  /\ suggestions (report (snd (_analyze_elf_sections dump (fresh noon))))
     = [{| Suggestion.category := "binary_size";
           Suggestion.issue := "Large section .text: 2048.0KB";
           Suggestion.suggestion :=
             "Investigate if .text can be optimized or compressed";
           Suggestion.impact := "medium" |}].
Proof.
  apply (C7_malformed_line_is_skipped _ (fresh noon)
           [""; "Idx Name Size"] "  0 .text 00200000 CONTENTS, ALLOC, LOAD"
           [] "  1 .data zzzz CONTENTS, ALLOC" []
           "0" ".text" "00200000" ["CONTENTS,"; "ALLOC,"; "LOAD"]).
  - left. vm_compute. reflexivity.
  - repeat constructor.
  - vm_compute. reflexivity.
  - vm_compute. reflexivity.
  - vm_compute. reflexivity.
  - vm_compute. reflexivity.
  - right. exists "zzzz". split; vm_compute; reflexivity.
Defined.

(** Outside C7: a third field that is a hexadecimal number, but of 300
    digits, is taken as a size; rendering it in KB overflows the float and
    the analyzer raises, past its [except] clause. *)
Example oversized_section_raises :
  fst (_analyze_elf_sections ("  0 .text " +++ copies_of 300 "f" +++ " CONTENTS")
         (fresh noon))
  = Raise overflow.
Proof. vm_compute. reflexivity. Qed.

(** ** C5: the hotspot thresholds *)

Lemma when_suggest (b : bool) s :
  evolves (when b (update_report (add_suggestion s)))
          (suggest (if b then [s] else [])).
Proof.
  eapply evolves_ext; [apply evolves_when, evolves_update |].
  intros r. destruct b; [reflexivity | now rewrite suggest_nil].
Qed.

(** C5. For a hotspot file that can be read, the analyzer returns and
    appends: one suggestion with the loop advice, of medium impact, exactly
    when the text has more than 10 loop constructs; one with the allocation
    advice, of high impact, exactly when it has more than 5 allocation
    calls; one with the lock advice, of high impact, exactly when it has
    more than 15 lock calls; and nothing else. Each of the three depends on
    its own count only. So 10 loop constructs give no loop suggestion and
    11 give exactly one. *)
Theorem C5_hotspot_thresholds_are_strict env file_path description content w :
  read_text env file_path = Ok content ->
  let loop_count := Re.findall_count Rules.loops content in
  let malloc_count := Re.findall_count Rules.allocations content in
  let lock_count := Re.findall_count Rules.locks content in
  fst (_analyze_hotspot_file env file_path description w) = Ok tt
  /\ exists new,
       suggestions (report (snd (_analyze_hotspot_file env file_path description w)))
       = suggestions (report w) ++ new
       /\ List.length (advising loop_advice new) = (if 10 <? loop_count then 1 else 0)
       /\ List.length (advising allocation_advice new)
          = (if 5 <? malloc_count then 1 else 0)
       /\ List.length (advising lock_advice new) = (if 15 <? lock_count then 1 else 0)
       /\ List.length new
          = List.length (advising loop_advice new)
            + List.length (advising allocation_advice new)
            + List.length (advising lock_advice new)
       /\ Forall (fun s => Suggestion.impact s = "medium") (advising loop_advice new)
       /\ Forall (fun s => Suggestion.impact s = "high") (advising allocation_advice new)
       /\ Forall (fun s => Suggestion.impact s = "high") (advising lock_advice new)
       /\ (loop_count = 10 -> advising loop_advice new = [])
       /\ (loop_count = 11 -> List.length (advising loop_advice new) = 1).
Proof.
  intros Hread loop_count malloc_count lock_count.
  assert (H : evolves (_analyze_hotspot_file env file_path description)
                (fun r => match read_text env file_path with
                          | Ok _ =>
                              suggest
                                ((if 10 <? loop_count then
                                    [{| Suggestion.category := "performance";
                                        Suggestion.issue :=
                                          name file_path +++ ": High loop count ("
                                          +++ Str.of_N (N.of_nat loop_count) +++ ")";
                                        Suggestion.suggestion := loop_advice;
                                        Suggestion.impact := "medium" |}]
                                  else [])
                                 ++ (if 5 <? malloc_count then
                                       [{| Suggestion.category := "performance";
                                           Suggestion.issue :=
                                             name file_path +++ ": Many allocations ("
                                             +++ Str.of_N (N.of_nat malloc_count) +++ ")";
                                           Suggestion.suggestion := allocation_advice;
                                           Suggestion.impact := "high" |}]
                                     else [])
                                 ++ (if 15 <? lock_count then
                                       [{| Suggestion.category := "performance";
                                           Suggestion.issue :=
                                             name file_path +++ ": Many locks ("
                                             +++ Str.of_N (N.of_nat lock_count) +++ ")";
                                           Suggestion.suggestion := lock_advice;
                                           Suggestion.impact := "high" |}]
                                     else [])) r
                          | Raise _ => r
                          end)).
  { unfold _analyze_hotspot_file. rewrite Hread.
    apply evolves_try. unfold bind at 1, call. cbv beta iota zeta.
    eapply evolves_ext.
    - apply evolves_seq; [apply when_suggest |].
      apply evolves_seq; apply when_suggest.
    - intros r. cbv beta. now rewrite !suggest_suggest. }
  rewrite Hread in H.
  destruct (evolves_run _ _ w H) as (Hv & Hr & _). split; [exact Hv |].
  eexists. split; [rewrite Hr; reflexivity |].
  destruct (10 <? loop_count) eqn:E1, (5 <? malloc_count) eqn:E2,
           (15 <? lock_count) eqn:E3;
    cbn; repeat split; auto;
    try (intros ->; discriminate).
Qed.

(** An instance of C5: a hotspot file with eleven loops. *)
Lemma C5_hotspot_thresholds_are_strict_witness :
  let content := copies_of 11 "for (i = 0; i < n; i++) { " in
  let env := one_hotspot content in
  Re.findall_count Rules.loops content = 11
  /\ fst (_analyze_hotspot_file env pmm_c "Memory management - critical path"
            (fresh noon)) = Ok tt
  /\ exists new,
       suggestions (report (snd (_analyze_hotspot_file env pmm_c
                                   "Memory management - critical path" (fresh noon))))
       = new
       /\ List.length (advising loop_advice new) = 1
       /\ Forall (fun s => Suggestion.impact s = "medium") (advising loop_advice new).
Proof.
  cbv zeta. split; [vm_compute; reflexivity |].
  destruct (C5_hotspot_thresholds_are_strict
              (one_hotspot (copies_of 11 "for (i = 0; i < n; i++) { ")) pmm_c
              "Memory management - critical path"
              (copies_of 11 "for (i = 0; i < n; i++) { ") (fresh noon) eq_refl)
    as (Hv & new & Hs & Hl & _ & _ & _ & Hm & _ & _ & _ & H11).
  split; [exact Hv |]. exists new. split; [exact Hs |]. split; [| exact Hm].
  apply H11. vm_compute. reflexivity.
Defined.

(** Ten loops stay below the threshold. *)
Example ten_loops_give_no_suggestion :
  let content := copies_of 10 "while (x) { " in
  Re.findall_count Rules.loops content = 10
  /\ suggestions (report (snd (_analyze_hotspot_file (one_hotspot content) pmm_c
                                 "Memory management - critical path" (fresh noon))))
     = [].
Proof. vm_compute. split; reflexivity. Qed.

(** ** What the report prints *)

Lemma picked_app {X} (sel : output -> option X) os1 os2 :
  picked sel (os1 ++ os2) = picked sel os1 ++ picked sel os2.
Proof. apply flat_map_app. Qed.

Lemma count_if_filter {A} (p : A -> bool) (xs : list A) :
  count_if p xs = List.length (filter p xs).
Proof.
  unfold count_if.
  assert (G : forall n, fold_left (fun total x => if p x then total + 1 else total) xs n
                        = n + List.length (filter p xs)).
  { induction xs as [| x xs IH]; intros n; cbn; [lia |].
    rewrite IH. destruct (p x); cbn; lia. }
  apply (G 0).
Qed.

Section Showing.
Context {X : Type}.
Variable sel : output -> option X.
Hypothesis sel_text : forall s, sel (Text s) = None.
Variable r : OptimizationReport.

Lemma shows_says (m : M unit) xs : shows sel m r xs -> says sel m r xs.
Proof. intros H w Hw. destruct (H w Hw) as (_ & H'). exact H'. Qed.

Lemma says_ret {A} (a : A) : says sel (ret a) r [].
Proof. intros w Hw. cbn. split; [exact Hw |]. exists []. now rewrite app_nil_r. Qed.

Lemma says_raise {A} e : says sel (@raise A e) r [].
Proof. intros w Hw. cbn. split; [exact Hw |]. exists []. now rewrite app_nil_r. Qed.

Lemma shows_ret : shows sel (ret tt) r [].
Proof.
  intros w Hw. cbn. repeat split; [exact Hw |]. exists []. now rewrite app_nil_r.
Qed.

Lemma shows_print o : shows sel (print o) r (picked sel [o]).
Proof. intros w Hw. cbn. repeat split; [exact Hw |]. now exists [o]. Qed.

Lemma shows_log message level : shows sel (log message level) r [].
Proof.
  intros w Hw. cbn. repeat split; [exact Hw |]. eexists. split; [reflexivity |].
  cbn. now rewrite sel_text.
Qed.

Lemma shows_seq m k xs ys :
  shows sel m r xs -> shows sel k r ys -> shows sel (m ;; k) r (xs ++ ys).
Proof.
  intros Hm Hk w Hw. unfold bind.
  destruct (Hm w Hw) as (Hv & Hr & out & Ho & Hp).
  destruct (m w) as [[[] | e] w1]; cbn in *; [| discriminate].
  destruct (Hk w1 Hr) as (Hv' & Hr' & out' & Ho' & Hp').
  repeat split; auto. exists (out ++ out').
  now rewrite Ho', Ho, app_assoc, picked_app, Hp, Hp'.
Qed.

Lemma says_after {A} m (k : M A) xs ys :
  shows sel m r xs -> says sel k r ys -> says sel (m ;; k) r (xs ++ ys).
Proof.
  intros Hm Hk w Hw. unfold bind.
  destruct (Hm w Hw) as (Hv & Hr & out & Ho & Hp).
  destruct (m w) as [[[] | e] w1]; cbn in *; [| discriminate].
  destruct (Hk w1 Hr) as (Hr' & out' & Ho' & Hp').
  split; auto. exists (out ++ out').
  now rewrite Ho', Ho, app_assoc, picked_app, Hp, Hp'.
Qed.

Lemma says_then {A B} (m : M A) (k : A -> M B) xs :
  says sel m r xs -> (forall a, says sel (k a) r []) -> says sel (bind m k) r xs.
Proof.
  intros Hm Hk w Hw. unfold bind.
  destruct (Hm w Hw) as (Hr & out & Ho & Hp).
  destruct (m w) as [[a | e] w1]; cbn in *.
  - destruct (Hk a w1 Hr) as (Hr' & out' & Ho' & Hp').
    split; auto. exists (out ++ out').
    now rewrite Ho', Ho, app_assoc, picked_app, Hp, Hp', app_nil_r.
  - split; auto. now exists out.
Qed.

Lemma shows_get (k : OptimizationReport -> M unit) xs :
  shows sel (k r) r xs -> shows sel (bind get_report k) r xs.
Proof. intros H w Hw. unfold bind, get_report. rewrite Hw. now apply H. Qed.

Lemma says_get {A} (k : OptimizationReport -> M A) xs :
  says sel (k r) r xs -> says sel (bind get_report k) r xs.
Proof. intros H w Hw. unfold bind, get_report. rewrite Hw. now apply H. Qed.

Lemma shows_when (b : bool) m xs :
  shows sel m r xs -> shows sel (when b m) r (if b then xs else []).
Proof. destruct b; cbn; auto using shows_ret. Qed.

Lemma says_when (b : bool) m xs :
  says sel m r xs -> says sel (when b m) r (if b then xs else []).
Proof. destruct b; cbn; auto using says_ret. Qed.

Lemma says_for {A} (xs : list A) body :
  (forall x, says sel (body x) r []) -> says sel (for_each xs body) r [].
Proof.
  intros Hb. induction xs as [| x xs IH]; cbn; [apply says_ret |].
  apply says_then; auto.
Qed.

Lemma shows_for {A} (xs : list A) body :
  (forall x, In x xs -> shows sel (body x) r []) ->
  shows sel (for_each xs body) r [].
Proof.
  induction xs as [| x xs IH]; intros Hb; cbn; [apply shows_ret |].
  apply (shows_seq _ _ [] []); [apply Hb; now left |].
  apply IH. intros y Hy. apply Hb. now right.
Qed.

End Showing.

Lemma says_ext {A X} (sel : output -> option X) (m : M A) r xs ys :
  says sel m r xs -> xs = ys -> says sel m r ys.
Proof. now intros H <-. Qed.

Lemma shows_ext {X} (sel : output -> option X) m r xs ys :
  shows sel m r xs -> xs = ys -> shows sel m r ys.
Proof. now intros H <-. Qed.

Lemma shows_if {X} (sel : output -> option X) (b : bool) m1 m2 r xs1 xs2 :
  shows sel m1 r xs1 -> shows sel m2 r xs2 ->
  shows sel (if b then m1 else m2) r (if b then xs1 else xs2).
Proof. now destruct b. Qed.

(** Rendering a size returns or raises, and prints nothing. *)
Lemma says_fmt {X} (sel : output -> option X) r (x : option Num.float)
  (g : Num.float -> string) :
  says sel (match x with Some y => ret (g y) | None => raise overflow end) r [].
Proof. destruct x; [apply says_ret | apply says_raise]. Qed.

(** One step through a method body that prints. *)
Ltac say :=
  lazymatch goal with
  | |- says _ (bind get_report _) _ _ => apply says_get; cbv zeta
  | |- shows _ (bind get_report _) _ _ => apply shows_get; cbv zeta
  | |- says _ (bind _ _) _ _ => eapply says_after
  | |- shows _ (bind _ _) _ _ => eapply shows_seq
  | |- shows _ (log _ _) _ _ => apply shows_log; reflexivity
  | |- shows _ (print _) _ _ => apply shows_print
  | |- shows _ (when _ _) _ _ => apply shows_when
  | |- shows _ (if _ then _ else _) _ _ => apply shows_if
  | |- says _ (print _) _ _ => apply shows_says, shows_print
  | |- says _ (when _ _) _ _ => apply says_when
  end.

(** What follows the quality block in the report prints no quality block,
    whether or not the metrics can be rendered. *)
Lemma after_quality_says r (ms : Dict.t N)
  (o1 o2 o3 o4 o5 : output) (b1 b2 : bool) :
  quality_in o1 = None -> quality_in o2 = None -> quality_in o3 = None ->
  quality_in o4 = None -> quality_in o5 = None ->
  says quality_in
    (when (negb (List.length ms =? 0))
       (print MetricsTitle ;;
        for_each ms (fun '(metric, value) =>
          when (String.eqb metric "kernel_size")
            (mb <- match Num.int_div_1024 (Z.of_N value) with
                   | Some x => ret (Num.fmt_1f (Num.float_div_1024 x))
                   | None => raise overflow
                   end ;;
             print (KernelSizeLine mb)))) ;;
     print o1 ;;
     (if b1 then print o2 else if b2 then print o3 else print o4) ;;
     print o5) r [].
Proof.
  intros H1 H2 H3 H4 H5.
  apply says_then.
  - eapply says_ext; [apply says_when |].
    + eapply says_after; [apply shows_print |].
      apply says_for. intros [metric value].
      eapply says_ext; [apply says_when |].
      * apply says_then; [apply says_fmt |]. intros mb.
        eapply says_ext; [apply shows_says, shows_print | reflexivity].
      * now destruct (String.eqb metric "kernel_size").
    + now destruct (negb _).
  - intros _. eapply says_ext.
    + say; [say |]. say; [| say]. say; [say |]. say; say.
    + cbn. rewrite H1, H5. destruct b1, b2; cbn; now rewrite ?H2, ?H3, ?H4.
Qed.

Lemma report_says_quality r :
  says quality_in generate_optimization_report r
    (if List.length (code_issues r) =? 0 then []
     else
       let todo_count :=
         List.length (filter (fun f => Str.contains "TODO" (Finding.issue f))
                             (code_issues r)) in
       let fixme_count :=
         List.length (filter (fun f => Str.contains "FIXME" (Finding.issue f))
                             (code_issues r)) in
       [(List.length (code_issues r), todo_count, fixme_count,
         (Z.of_nat (List.length (code_issues r)) - Z.of_nat todo_count
          - Z.of_nat fixme_count)%Z)]).
Proof.
  unfold generate_optimization_report. eapply says_ext.
  - say; [say |]. say; [say |]. say.
    say; [say; say |]. say; [say; say |]. say; [say; say |].
    say; [say; say |].
    apply after_quality_says; reflexivity.
  - cbn. rewrite !count_if_filter.
    destruct (List.length (performance_issues r) =? 0),
      (List.length (security_issues r) =? 0),
      (List.length (code_issues r) =? 0),
      (List.length (suggestions r) =? 0); reflexivity.
Qed.

(** ** C3 and C10: the headline counts of the quality block *)

(** C3, as stated, fails: for the line [x = 0x1F; // TODO] the report
    counts two TODO findings, the one of the TODO rule and the one of the
    magic-number rule, whose line also holds the marker; only one of the
    two advisories holds it. *)
Lemma C3_counts_by_advisory_counterexample :
  let w := snd (analyze_code_quality (one_file "x = 0x1F; // TODO") (fresh noon)) in
  let by_advisory :=
    List.length (filter (fun f => Str.contains "TODO" (Finding.suggestion f))
                        (code_issues (report w))) in
  exists count todo_count fixme_count other,
    In (QualityBlock count todo_count fixme_count other)
       (stdout (snd (generate_optimization_report w)))
    /\ todo_count <> by_advisory.
Proof.
  cbv zeta. exists 2, 2, 0, 0%Z. split.
  - vm_compute. repeat (first [left; reflexivity | right]).
  - vm_compute. discriminate.
Qed.

(** C3, amended. For every report, the quality block of the report, which
    is printed when, and only when, there is a quality finding, shows these
    counts: the number of quality findings; the number of those whose
    recorded line text contains "TODO"; the number of those whose recorded
    line text contains "FIXME"; and, as the other issues, the first minus
    the other two. *)
Theorem C3_quality_counts_scan_line_text w :
  let quality := code_issues (report w) in
  let todo_count :=
    List.length (filter (fun f => Str.contains "TODO" (Finding.issue f)) quality) in
  let fixme_count :=
    List.length (filter (fun f => Str.contains "FIXME" (Finding.issue f)) quality) in
  exists out,
    stdout (snd (generate_optimization_report w)) = stdout w ++ out
    /\ picked quality_in out
       = match quality with
         | [] => []
         | _ :: _ =>
             [(List.length quality, todo_count, fixme_count,
               (Z.of_nat (List.length quality) - Z.of_nat todo_count
                - Z.of_nat fixme_count)%Z)]
         end.
Proof.
  cbv zeta.
  destruct (report_says_quality (report w) w eq_refl) as (_ & out & Ho & Hp).
  exists out. split; [exact Ho |]. rewrite Hp.
  now destruct (code_issues (report w)).
Qed.

(** The counts for the tree scanned in the counterexample. *)
Example quality_counts_of_a_todo_line :
  let w := snd (analyze_code_quality (one_file "x = 0x1F; // TODO") (fresh noon)) in
  exists out,
    stdout (snd (generate_optimization_report w)) = stdout w ++ out
    /\ picked quality_in out = [(2, 2, 0, 0%Z)].
Proof.
  cbv zeta.
  destruct (report_says_quality _
              (snd (analyze_code_quality (one_file "x = 0x1F; // TODO") (fresh noon)))
              eq_refl) as (_ & out & Ho & Hp).
  exists out. split; [exact Ho |]. rewrite Hp. vm_compute. reflexivity.
Qed.

(** C10. There is a tree, with the single one-line file [// TODO FIXME],
    for which the analysis, at whatever time it runs, records two quality
    findings on that line, one of the TODO rule and one of the FIXME rule,
    and prints a quality block whose count of other issues is negative:
    2 - 2 - 2 = -2. *)
Theorem C10_other_count_can_be_negative :
  exists env, forall time,
    let w := snd (main_analyze env (fresh time)) in
    map (fun f => (Finding.issue f, Finding.suggestion f)) (code_issues (report w))
    = [("// TODO FIXME", "TODO comment found");
       ("// TODO FIXME", "FIXME comment found")]
    /\ exists count todo_count fixme_count other,
         In (QualityBlock count todo_count fixme_count other) (stdout w)
         /\ other = (Z.of_nat count - Z.of_nat todo_count - Z.of_nat fixme_count)%Z
         /\ (other < 0)%Z.
Proof.
  exists (one_file "// TODO FIXME"). intros time. cbv zeta. split.
  - vm_compute. reflexivity.
  - exists 2, 2, 2, (-2)%Z. split; [| split; [reflexivity | lia]].
    vm_compute. repeat (first [left; reflexivity | right]).
Qed.

(** ** Sizes a float can hold *)

Lemma round53_bound (n : Z) : (0 <= n -> Num.round53 n <= 2 * n)%Z.
Proof.
  intros Hn. unfold Num.round53.
  destruct (Z.log2 n + 1 <=? 53)%Z eqn:E; [lia |].
  apply Z.leb_gt in E.
  set (sh := (Z.log2 n + 1 - 53)%Z) in *.
  assert (Hsh : (0 < sh)%Z) by lia.
  assert (Hpos : (0 < n)%Z)
    by (destruct (Z.eq_dec n 0) as [-> |]; [cbn in E; lia | lia]).
  rewrite !Z.shiftl_mul_pow2, Z.shiftr_div_pow2 by lia.
  assert (Hp : (0 < 2 ^ sh)%Z) by (apply Z.pow_pos_nonneg; lia).
  assert (Hle : (2 ^ sh <= n)%Z).
  { transitivity (2 ^ Z.log2 n)%Z; [apply Z.pow_le_mono_r; lia |].
    apply Z.log2_spec. lia. }
  pose proof (Z.mul_div_le n (2 ^ sh) Hp) as Hq.
  destruct (_ || _); nia.
Qed.

(** Every size a file can have is below 2^63, and can be rendered. *)
Lemma file_size_is_printable (n : N) :
  (n < 2 ^ 63)%N -> Num.int_div_1024 (Z.of_N n) <> None.
Proof.
  intros Hn. unfold Num.int_div_1024.
  pose proof (round53_bound (Z.of_N n) (N2Z.is_nonneg n)) as Hb.
  assert (Hz : (Z.of_N n < 2 ^ 63)%Z).
  { change (2 ^ 63)%Z with (Z.of_N (2 ^ 63)). now apply N2Z.inj_lt. }
  destruct (Z.shiftl 1 1034 <=? Num.round53 (Z.of_N n))%Z eqn:E; [| discriminate].
  apply Z.leb_le in E. rewrite Z.shiftl_mul_pow2 in E by lia.
  assert (H : (2 ^ 64 <= 1 * 2 ^ 1034)%Z).
  { rewrite Z.mul_1_l. apply Z.pow_le_mono_r; lia. }
  change (2 ^ 63)%Z with 9223372036854775808%Z in Hz.
  change (2 ^ 64)%Z with 18446744073709551616%Z in H. lia.
Qed.

Lemma printable_set key value r :
  Num.int_div_1024 (Z.of_N value) <> None ->
  printable r -> printable (set_metric key value r).
Proof.
  unfold printable, set_metric; cbn. intros Hv H.
  induction H as [| [k v] ms Hkv Hms IH]; cbn.
  - constructor; [exact Hv | constructor].
  - destruct (String.eqb k key); constructor; auto.
Qed.

(** In a tree whose kernel image has the size of a file, the metrics of
    every reachable world can be rendered. *)
Lemma reachable_printable env w :
  (forall size, kernel_stat env = Some size -> (size < 2 ^ 63)%N) ->
  reachable env w -> printable (report w).
Proof.
  intros Hsize.
  induction 1 as [time | w fp n l _ IH | w fp n l _ IH | w fp n l _ IH
                 | w _ IH | w o _ IH | w _ IH | w fp d _ IH | w _ IH | w _ IH].
  - constructor.
  - revert w IH. eapply preserves_evolves; [apply check_performance_evolves |].
    auto.
  - revert w IH. eapply preserves_evolves; [apply check_security_evolves |].
    auto.
  - revert w IH. eapply preserves_evolves; [apply check_quality_evolves |].
    auto.
  - revert w IH. eapply preserves_evolves; [apply analyze_code_quality_evolves |].
    auto.
  - revert w IH. apply elf_sections_preserves; auto.
  - revert w IH. unfold analyze_binary_size.
    apply preserves_bind; [apply preserves_log |]. intros _.
    destruct (kernel_stat env) as [kernel_size |] eqn:Ek; [| apply preserves_ret].
    apply preserves_bind.
    { apply preserves_update. intros r Hr.
      apply printable_set; [| exact Hr]. apply file_size_is_printable. auto. }
    intros _. apply preserves_bind.
    + apply preserves_when, preserves_bind;
        [apply preserves_fmt | intros mb; apply preserves_update; auto].
    + intros _. destruct (run_command env _) as [[success out] err].
      apply preserves_when, elf_sections_preserves; auto.
  - revert w IH. apply hotspot_file_preserves; auto.
  - revert w IH. apply hotspots_preserves; auto.
  - revert w IH. apply report_preserves; auto.
Qed.

(** ** C1: the verdict *)

Lemma kernel_line_shows r (value : N) :
  Num.int_div_1024 (Z.of_N value) <> None ->
  shows verdict_in
    (mb <- match Num.int_div_1024 (Z.of_N value) with
           | Some x => ret (Num.fmt_1f (Num.float_div_1024 x))
           | None => raise overflow
           end ;;
     print (KernelSizeLine mb)) r [].
Proof.
  intros H. destruct (Num.int_div_1024 (Z.of_N value)) as [x |]; [| contradiction].
  intros w Hw. cbn. repeat split; [exact Hw |]. now eexists.
Qed.

Lemma report_shows_verdict r :
  printable r ->
  shows verdict_in generate_optimization_report r
    [if List.length (performance_issues r) + List.length (security_issues r)
        + List.length (code_issues r) =? 0
     then ExcellentCodeQuality
     else if List.length (security_issues r) =? 0 then SecurityLooksGood
          else SecurityNeedsAttention].
Proof.
  intros Hm. unfold generate_optimization_report. eapply shows_ext.
  - say; [say |]. say; [say |]. say.
    say; [say; say |]. say; [say; say |]. say; [say; say |].
    say; [say; say |].
    say; [say; say; [say |] |].
    + apply shows_for. intros [metric value] Hin.
      eapply shows_ext; [apply shows_when, kernel_line_shows |].
      * unfold printable in Hm. rewrite Forall_forall in Hm. apply (Hm _ Hin).
      * now destruct (String.eqb metric "kernel_size").
    + say; [say |]. say; [| say]. say; [say |]. say; say.
  - cbn.
    destruct (List.length (performance_issues r) =? 0),
      (List.length (security_issues r) =? 0) eqn:Es,
      (List.length (code_issues r) =? 0),
      (List.length (suggestions r) =? 0),
      (List.length (metrics r) =? 0),
      (List.length (performance_issues r) + List.length (security_issues r)
       + List.length (code_issues r) =? 0); reflexivity.
Qed.

(** C1. For every report whose metrics can be rendered, the synthesizer
    returns and prints exactly one verdict: the excellent one when the three
    sequences of findings are all empty; otherwise the security-looks-good
    one when there is no security finding; otherwise, that is as soon as
    there is a security finding, the needs-attention one. *)
Theorem C1_verdict_precedence w :
  printable (report w) ->
  let performance := List.length (performance_issues (report w)) in
  let security := List.length (security_issues (report w)) in
  let quality := List.length (code_issues (report w)) in
  fst (generate_optimization_report w) = Ok tt
  /\ exists out v,
       stdout (snd (generate_optimization_report w)) = stdout w ++ out
       /\ picked verdict_in out = [v]
       /\ (performance + security + quality = 0 -> v = ExcellentCodeQuality)
       /\ (0 < performance + quality -> security = 0 -> v = SecurityLooksGood)
       /\ (0 < security -> v = SecurityNeedsAttention).
Proof.
  intros Hm performance security quality.
  destruct (report_shows_verdict (report w) Hm w eq_refl) as (Hv & _ & out & Ho & Hp).
  split; [exact Hv |]. exists out. eexists. split; [exact Ho |].
  split; [exact Hp |]. fold performance security quality.
  destruct (performance + security + quality =? 0) eqn:Et.
  - apply Nat.eqb_eq in Et. repeat split; intros; auto; lia.
  - apply Nat.eqb_neq in Et. destruct (security =? 0) eqn:Es.
    + apply Nat.eqb_eq in Es. repeat split; intros; auto; lia.
    + apply Nat.eqb_neq in Es. repeat split; intros; auto; lia.
Qed.

(** An instance of C1: three performance findings and no security finding
    give the security-looks-good verdict. *)
Lemma C1_verdict_precedence_witness :
  let w := snd (scan with_kernel (fresh noon)) in
  printable (report w)
  /\ List.length (performance_issues (report w)) = 3
  /\ List.length (security_issues (report w)) = 0
  /\ fst (generate_optimization_report w) = Ok tt
  /\ exists out,
       stdout (snd (generate_optimization_report w)) = stdout w ++ out
       /\ picked verdict_in out = [SecurityLooksGood].
Proof.
  cbv zeta.
  assert (Hm : printable (report (snd (scan with_kernel (fresh noon))))).
  { vm_compute. repeat constructor. discriminate. }
  split; [exact Hm |].
  split; [vm_compute; reflexivity |]. split; [vm_compute; reflexivity |].
  destruct (C1_verdict_precedence (snd (scan with_kernel (fresh noon))) Hm)
    as (Hv & out & v & Ho & Hp & _ & Hgood & _).
  split; [exact Hv |]. exists out. split; [exact Ho |].
  rewrite Hp. f_equal. apply Hgood; vm_compute; [lia | reflexivity].
Defined.

(** ** C9: the report does not depend on the clock *)

Lemma det_ret {A} (a : A) : deterministic (ret a).
Proof. intros w1 w2 E; cbn; auto. Qed.

Lemma det_raise {A} e : deterministic (@raise A e).
Proof. intros w1 w2 E; cbn; auto. Qed.

Lemma det_call {A} (x : result A) : deterministic (call x).
Proof. intros w1 w2 E; cbn; auto. Qed.

Lemma det_print o : deterministic (print o).
Proof. intros w1 w2 E; cbn; auto. Qed.

Lemma det_update f : deterministic (update_report f).
Proof. intros w1 w2 E; cbn. now rewrite E. Qed.

Lemma det_get : deterministic get_report.
Proof. intros w1 w2 E; cbn. now rewrite E. Qed.

(** The line [log] prints shows the time; its value and the report do not. *)
Lemma det_log message level : deterministic (log message level).
Proof. intros w1 w2 E; cbn; auto. Qed.

Lemma det_bind {A B} (m : M A) (f : A -> M B) :
  deterministic m -> (forall a, deterministic (f a)) -> deterministic (bind m f).
Proof.
  intros Hm Hf w1 w2 E. unfold bind. destruct (Hm w1 w2 E) as (Hv & Hr).
  destruct (m w1) as [[a1 | e1] w1'], (m w2) as [[a2 | e2] w2']; cbn in *;
    try discriminate.
  - injection Hv as ->. now apply Hf.
  - injection Hv as ->. auto.
Qed.

Lemma det_try {A} (m : M A) h :
  deterministic m -> (forall e, deterministic (h e)) ->
  deterministic (try_except m h).
Proof.
  intros Hm Hh w1 w2 E. unfold try_except. destruct (Hm w1 w2 E) as (Hv & Hr).
  destruct (m w1) as [[a1 | e1] w1'], (m w2) as [[a2 | e2] w2']; cbn in *;
    try discriminate.
  - auto.
  - injection Hv as ->. now apply Hh.
Qed.

Lemma det_when b m : deterministic m -> deterministic (when b m).
Proof. destruct b; cbn; auto using det_ret. Qed.

Lemma det_for {A} (xs : list A) body :
  (forall x, deterministic (body x)) -> deterministic (for_each xs body).
Proof. intros Hb. induction xs; cbn; auto using det_ret, det_bind. Qed.

Lemma det_fmt (x : option Num.float) (g : Num.float -> string) :
  deterministic (match x with Some y => ret (g y) | None => raise overflow end).
Proof. destruct x; [apply det_ret | apply det_raise]. Qed.

(** One step through a method body. *)
Ltac det :=
  lazymatch goal with
  | |- deterministic (bind _ _) => apply det_bind; [| intros ?]
  | |- deterministic (try_except _ _) => apply det_try; [| intros ?]
  | |- deterministic (for_each _ _) => apply det_for; intros ?
  | |- deterministic (when _ _) => apply det_when
  | |- deterministic (log _ _) => apply det_log
  | |- deterministic (print _) => apply det_print
  | |- deterministic (update_report _) => apply det_update
  | |- deterministic (call _) => apply det_call
  | |- deterministic (ret _) => apply det_ret
  | |- deterministic (raise _) => apply det_raise
  | |- deterministic (match ?x with Some _ => ret _ | None => raise _ end) =>
      apply det_fmt
  | |- deterministic (let '(_, _) := ?x in _) => destruct x
  | |- deterministic (match ?x with Some _ => _ | None => _ end) => destruct x
  end.

Lemma check_deterministic c file_path line_num line :
  deterministic (check c file_path line_num line).
Proof.
  destruct c; cbn [check];
    unfold _check_performance_patterns, _check_security_patterns,
      _check_quality_patterns; repeat det.
Qed.

Lemma code_quality_deterministic env : deterministic (analyze_code_quality env).
Proof.
  unfold analyze_code_quality. repeat det.
  - apply (check_deterministic Performance).
  - apply (check_deterministic Security).
  - apply (check_deterministic Quality).
Qed.

Lemma elf_sections_deterministic objdump_output :
  deterministic (_analyze_elf_sections objdump_output).
Proof. unfold _analyze_elf_sections. repeat det. Qed.

Lemma binary_size_deterministic env : deterministic (analyze_binary_size env).
Proof.
  unfold analyze_binary_size. repeat det.
  apply elf_sections_deterministic.
Qed.

Lemma hotspot_file_deterministic env file_path description :
  deterministic (_analyze_hotspot_file env file_path description).
Proof. unfold _analyze_hotspot_file. repeat det. Qed.

Lemma hotspots_deterministic env : deterministic (check_performance_hotspots env).
Proof.
  unfold check_performance_hotspots. repeat det.
  apply hotspot_file_deterministic.
Qed.

Lemma scan_deterministic env : deterministic (scan env).
Proof.
  unfold scan. repeat det.
  - apply code_quality_deterministic.
  - apply binary_size_deterministic.
  - apply hotspots_deterministic.
Qed.

(** C9. Two runs of the code scan, the section analysis and the hotspot
    analysis over the same files, kernel size and section dump, started from
    a new optimizer at whatever times, end alike (both return, or both
    raise the same exception) with the same sequences of performance,
    security and quality findings and the same sequence of suggestions. *)
Theorem C9_scan_is_deterministic env time1 time2 :
  let run1 := scan env (fresh time1) in
  let run2 := scan env (fresh time2) in
  fst run1 = fst run2
  /\ performance_issues (report (snd run1)) = performance_issues (report (snd run2))
  /\ security_issues (report (snd run1)) = security_issues (report (snd run2))
  /\ code_issues (report (snd run1)) = code_issues (report (snd run2))
  /\ suggestions (report (snd run1)) = suggestions (report (snd run2)).
Proof.
  cbv zeta.
  destruct (scan_deterministic env (fresh time1) (fresh time2) eq_refl) as (Hv & Hr).
  rewrite Hv, Hr. auto.
Qed.

(** * Further properties *)

(** ** The code scan: what is found, and in which order *)

Lemma enumerate_In {A} (xs : list A) start n x :
  In (n, x) (enumerate start xs)
  <-> exists i, n = start + i /\ nth_error xs i = Some x.
Proof.
  revert start. induction xs as [| y xs IH]; intros start; cbn.
  - split; [contradiction | intros ([| i] & _ & H); discriminate].
  - rewrite IH. split.
    + intros [E | (i & -> & H)].
      * injection E as <- <-. exists 0. split; [lia | reflexivity].
      * exists (S i). split; [lia | exact H].
    + intros ([| i] & -> & H); cbn in H.
      * injection H as ->. left. f_equal. lia.
      * right. exists i. split; [lia | exact H].
Qed.

Lemma in_findings_of rules severity file_path line_num line f :
  In f (findings_of rules severity file_path line_num line)
  <-> exists rule,
        In rule rules
        /\ Re.search (fst rule) (Str.strip line) = true
        /\ f = {| Finding.file := relative file_path;
                  Finding.line := line_num;
                  Finding.issue := Str.strip line;
                  Finding.suggestion := snd rule;
                  Finding.severity := severity |}.
Proof.
  unfold findings_of, matching. rewrite in_map_iff. split.
  - intros (rule & <- & H). apply filter_In in H. destruct H as (Hin & Hs).
    exists rule. auto.
  - intros (rule & Hin & Hs & ->). exists rule. split; [reflexivity |].
    apply filter_In. auto.
Qed.

Lemma in_file_findings rules severity file_path content f :
  In f (file_findings rules severity file_path content)
  <-> exists i line,
        nth_error (Str.split_on Char.newline content) i = Some line
        /\ In f (findings_of rules severity file_path (S i) line).
Proof.
  unfold file_findings. rewrite in_flat_map. split.
  - intros ((n & line) & Hin & Hf). apply enumerate_In in Hin.
    destruct Hin as (i & -> & Hn). exists i, line. auto.
  - intros (i & line & Hn & Hf). exists (S i, line). split; [| exact Hf].
    apply enumerate_In. exists i. auto.
Qed.

Lemma in_tree_findings env rules severity f :
  In f (tree_findings env rules severity)
  <-> exists file_path content,
        In file_path (c_files env)
        /\ read_text env file_path = Ok content
        /\ In f (file_findings rules severity file_path content).
Proof.
  unfold tree_findings. rewrite in_flat_map. split.
  - intros (file_path & Hin & Hf).
    destruct (read_text env file_path) as [content |] eqn:E; [| contradiction].
    exists file_path, content. auto.
  - intros (file_path & content & Hin & E & Hf). exists file_path.
    rewrite E. auto.
Qed.

Lemma code_quality_issues env c w :
  issues c (report (snd (analyze_code_quality env w)))
  = issues c (report w) ++ tree_findings env (table c) (severity_of c).
Proof.
  destruct (evolves_run _ _ w (analyze_code_quality_evolves env)) as (_ & Hr & _).
  rewrite Hr. now destruct c.
Qed.

(** X1. After the code scan, a category holds exactly the findings it held
    before and, for every visited file that can be read, every line of it
    and every rule of the category that matches the stripped line, the
    finding of that rule at that line (lines counted from 1); nothing is
    missed and nothing else is added. *)
Theorem code_scan_finds_exactly_the_matches env c w f :
  In f (issues c (report (snd (analyze_code_quality env w))))
  <-> In f (issues c (report w))
      \/ exists file_path content i line rule,
           In file_path (c_files env)
           /\ read_text env file_path = Ok content
           /\ nth_error (Str.split_on Char.newline content) i = Some line
           /\ In rule (table c)
           /\ Re.search (fst rule) (Str.strip line) = true
           /\ f = {| Finding.file := relative file_path;
                     Finding.line := S i;
                     Finding.issue := Str.strip line;
                     Finding.suggestion := snd rule;
                     Finding.severity := severity_of c |}.
Proof.
  rewrite code_quality_issues, in_app_iff, in_tree_findings.
  split; (intros [H | H]; [left; exact H | right]).
  - destruct H as (file_path & content & Hin & E & Hf).
    apply in_file_findings in Hf. destruct Hf as (i & line & Hn & Hf).
    apply in_findings_of in Hf. destruct Hf as (rule & Hr & Hs & ->).
    exists file_path, content, i, line, rule. auto 10.
  - destruct H as (file_path & content & i & line & rule & Hin & E & Hn & Hr & Hs & ->).
    exists file_path, content. split; [exact Hin |]. split; [exact E |].
    apply in_file_findings. exists i, line. split; [exact Hn |].
    apply in_findings_of. exists rule. auto.
Qed.

Lemma pairs_app {A} (R : A -> A -> Prop) l1 l2 :
  ForallOrdPairs R l1 -> ForallOrdPairs R l2 ->
  (forall x y, In x l1 -> In y l2 -> R x y) ->
  ForallOrdPairs R (l1 ++ l2).
Proof.
  intros H1 H2 H12. induction H1 as [| a l Ha Hl IH]; cbn; [exact H2 |].
  constructor.
  - apply Forall_app. split; [exact Ha |].
    apply Forall_forall. intros y Hy. apply H12; [now left | exact Hy].
  - apply IH. intros x y Hx Hy. apply H12; [now right | exact Hy].
Qed.

Lemma pairs_flat_map {A B} (R : B -> B -> Prop) (F : A -> list B) xs :
  ForallOrdPairs (fun x y => forall a b, In a (F x) -> In b (F y) -> R a b) xs ->
  (forall x, ForallOrdPairs R (F x)) ->
  ForallOrdPairs R (flat_map F xs).
Proof.
  intros Hxs HF. induction Hxs as [| x l Hx Hl IH]; cbn; [constructor |].
  apply pairs_app; [apply HF | exact IH |].
  intros a b Ha Hb. apply in_flat_map in Hb. destruct Hb as (y & Hy & Hb).
  rewrite Forall_forall in Hx. exact (Hx y Hy a b Ha Hb).
Qed.

Lemma pairs_all {A} (R : A -> A -> Prop) l :
  (forall x y, In x l -> In y l -> R x y) -> ForallOrdPairs R l.
Proof.
  induction l as [| a l IH]; intros H; constructor.
  - apply Forall_forall. intros y Hy. apply H; [now left | now right].
  - apply IH. intros x y Hx Hy. apply H; now right.
Qed.

Lemma enumerate_from {A} (xs : list A) start :
  Forall (fun nl => start <= fst nl) (enumerate start xs).
Proof.
  revert start. induction xs as [| x xs IH]; intros start; cbn; constructor.
  - cbn. lia.
  - eapply Forall_impl; [| apply (IH (S start))]. cbn. intros nl H. lia.
Qed.

Lemma enumerate_increases {A} (xs : list A) start :
  ForallOrdPairs (fun a b => fst a <= fst b) (enumerate start xs).
Proof.
  revert start. induction xs as [| x xs IH]; intros start; cbn; constructor.
  - eapply Forall_impl; [| apply (enumerate_from xs (S start))].
    cbn. intros nl H. lia.
  - apply IH.
Qed.

Lemma pairs_impl {A} (R Q : A -> A -> Prop) l :
  (forall x y, R x y -> Q x y) -> ForallOrdPairs R l -> ForallOrdPairs Q l.
Proof.
  intros H. induction 1 as [| a l Ha Hl IH]; constructor; [| exact IH].
  eapply Forall_impl; [| exact Ha]. auto.
Qed.

Lemma file_findings_in_line_order rules severity file_path content :
  ForallOrdPairs in_line_order (file_findings rules severity file_path content).
Proof.
  unfold file_findings. apply pairs_flat_map.
  - eapply pairs_impl; [| apply enumerate_increases].
    intros [n1 l1] [n2 l2] Hle a b Ha Hb _. cbn in *.
    apply in_findings_of in Ha, Hb.
    destruct Ha as (? & _ & _ & ->), Hb as (? & _ & _ & ->). exact Hle.
  - intros [n l]. apply pairs_all. intros a b Ha Hb _. cbn in *.
    apply in_findings_of in Ha, Hb.
    destruct Ha as (? & _ & _ & ->), Hb as (? & _ & _ & ->). cbn. lia.
Qed.

Lemma distinct_pairs {A B} (g : A -> B) xs :
  NoDup (map g xs) -> ForallOrdPairs (fun x y => g x <> g y) xs.
Proof.
  induction xs as [| x xs IH]; cbn; intros H; constructor.
  - inversion H as [| ? ? Hn _]; subst. apply Forall_forall.
    intros y Hy E. apply Hn. rewrite E. now apply in_map.
  - apply IH. now inversion H.
Qed.

(** X2. When the scan visits no file twice, the findings it appends to a
    category are in line order within every file: of any two of them that
    name the same file, the one appended first has the smaller or the same
    line number. *)
Theorem code_scan_keeps_line_order env c w :
  NoDup (map relative (c_files env)) ->
  exists new,
    issues c (report (snd (analyze_code_quality env w)))
    = issues c (report w) ++ new
    /\ ForallOrdPairs in_line_order new.
Proof.
  intros Hnd. exists (tree_findings env (table c) (severity_of c)).
  split; [apply code_quality_issues |].
  unfold tree_findings. apply pairs_flat_map.
  - eapply pairs_impl; [| apply (distinct_pairs relative), Hnd].
    intros p1 p2 Hne a b Ha Hb E. exfalso. apply Hne.
    destruct (read_text env p1) as [c1 |]; [| contradiction].
    destruct (read_text env p2) as [c2 |]; [| contradiction].
    apply in_file_findings in Ha, Hb.
    destruct Ha as (? & ? & _ & Ha), Hb as (? & ? & _ & Hb).
    apply in_findings_of in Ha, Hb.
    destruct Ha as (? & _ & _ & ->), Hb as (? & _ & _ & ->). exact E.
  - intros fp. destruct (read_text env fp); [| constructor].
    apply file_findings_in_line_order.
Qed.

(** An instance of X2: a file of three lines, two of them with findings. *)
Lemma code_scan_keeps_line_order_witness :
  let env := one_file ("// TODO a" +++ after_lines 1 "x"
                       +++ after_lines 1 "y = 0x10; // FIXME") in
  NoDup (map relative (c_files env))
  /\ exists new,
       issues Quality (report (snd (analyze_code_quality env (fresh noon))))
       = issues Quality (report (fresh noon)) ++ new
       /\ ForallOrdPairs in_line_order new.
Proof.
  cbv zeta.
  assert (H : NoDup (map relative
                       (c_files (one_file ("// TODO a" +++ after_lines 1 "x"
                                           +++ after_lines 1 "y = 0x10; // FIXME"))))).
  { vm_compute. repeat constructor. intros []. }
  split; [exact H |].
  apply (code_scan_keeps_line_order _ Quality (fresh noon) H).
Defined.

(** ** Blank lines, and the text a finding keeps *)

Lemma blank_lstrip s : blank s = true -> Str.lstrip s = EmptyString.
Proof.
  induction s as [| c t IH]; cbn; [reflexivity |].
  intros H. apply andb_prop in H. destruct H as (Hc & Ht). now rewrite Hc, IH.
Qed.

Lemma no_rule_matches_nothing c : matching (table c) EmptyString = [].
Proof. destruct c; vm_compute; reflexivity. Qed.

(** X3. A line of whitespace only, the empty line included, gives no
    finding: each checking method returns and leaves the report as it
    was. *)
Theorem blank_line_gives_no_finding c file_path line_num line w :
  blank line = true ->
  fst (check c file_path line_num line w) = Ok tt
  /\ report (snd (check c file_path line_num line w)) = report w.
Proof.
  intros Hb.
  assert (Hf : forall c', findings_of (table c') (severity_of c')
                            file_path line_num line = []).
  { intros c'. unfold findings_of, Str.strip. rewrite (blank_lstrip _ Hb). cbn [Str.rstrip].
    now rewrite no_rule_matches_nothing. }
  destruct c; cbn [check].
  - destruct (evolves_run _ _ w (check_performance_evolves file_path line_num line))
      as (Hv & Hr & _).
    rewrite Hv, Hr. change (findings_of Rules.performance "medium" file_path line_num line)
      with (findings_of (table Performance) (severity_of Performance) file_path line_num line).
    now rewrite Hf, extend_nil.
  - destruct (evolves_run _ _ w (check_security_evolves file_path line_num line))
      as (Hv & Hr & _).
    rewrite Hv, Hr. change (findings_of Rules.security "high" file_path line_num line)
      with (findings_of (table Security) (severity_of Security) file_path line_num line).
    now rewrite Hf, extend_nil.
  - destruct (evolves_run _ _ w (check_quality_evolves file_path line_num line))
      as (Hv & Hr & _).
    rewrite Hv, Hr. change (findings_of Rules.quality "low" file_path line_num line)
      with (findings_of (table Quality) (severity_of Quality) file_path line_num line).
    now rewrite Hf, extend_nil.
Qed.

(** An instance of X3: a line of blanks and a tab. *)
Lemma blank_line_gives_no_finding_witness :
  let line := "  " +++ String (ascii_of_nat 9) " " in
  blank line = true
  /\ fst (check Security main_c 3 line (fresh noon)) = Ok tt
  /\ report (snd (check Security main_c 3 line (fresh noon))) = report (fresh noon).
Proof.
  cbv zeta. split; [reflexivity |].
  apply (blank_line_gives_no_finding Security main_c 3). reflexivity.
Defined.

Lemma rstrip_cons c t :
  Str.rstrip (String c t)
  = match Str.rstrip t with
    | EmptyString => if Char.isspace c then EmptyString else String c EmptyString
    | String c' t' => String c (String c' t')
    end.
Proof. reflexivity. Qed.

Lemma rstrip_rstrip s : Str.rstrip (Str.rstrip s) = Str.rstrip s.
Proof.
  induction s as [| c t IH]; [reflexivity |].
  rewrite (rstrip_cons c t). destruct (Str.rstrip t) as [| c' t'] eqn:E.
  - destruct (Char.isspace c) eqn:Ec; [reflexivity |].
    rewrite rstrip_cons. cbn [Str.rstrip]. now rewrite Ec.
  - rewrite rstrip_cons, IH. reflexivity.
Qed.

Lemma lstrip_rstrip_lstrip s :
  Str.lstrip (Str.rstrip (Str.lstrip s)) = Str.rstrip (Str.lstrip s).
Proof.
  assert (G : forall u, Str.lstrip u = u -> Str.lstrip (Str.rstrip u) = Str.rstrip u).
  { intros [| c t] Hu; cbn; [reflexivity |].
    cbn in Hu. destruct (Char.isspace c) eqn:Ec.
    - exfalso. assert (L : forall v, String.length (Str.lstrip v) <= String.length v).
      { induction v as [| d v IHv]; cbn; [lia |].
        destruct (Char.isspace d); cbn; lia. }
      specialize (L t). rewrite Hu in L. cbn in L. lia.
    - destruct (Str.rstrip t); cbn; now rewrite Ec. }
  apply G. induction s as [| c t IH]; cbn; [reflexivity |].
  destruct (Char.isspace c) eqn:Ec; [exact IH | cbn; now rewrite Ec].
Qed.

Lemma strip_strip s : Str.strip (Str.strip s) = Str.strip s.
Proof.
  unfold Str.strip. now rewrite lstrip_rstrip_lstrip, rstrip_rstrip.
Qed.

(** X4. The text a checking method records in a finding has no whitespace
    left at either end: stripping it again changes nothing. *)
Theorem recorded_text_is_stripped c file_path line_num line w :
  exists new,
    issues c (report (snd (check c file_path line_num line w)))
    = issues c (report w) ++ new
    /\ Forall (fun f => Str.strip (Finding.issue f) = Finding.issue f) new.
Proof.
  destruct (check_appends c file_path line_num line w) as (_ & Hr).
  eexists. split; [exact Hr |]. apply Forall_forall. intros f Hf.
  apply in_findings_of in Hf. destruct Hf as (rule & _ & _ & ->). cbn.
  apply strip_strip.
Qed.

(** ** The report only grows *)

Lemma grows_refl r : grows r r.
Proof. repeat split; exists []; now rewrite app_nil_r. Qed.

Lemma grows_extend r0 r perf sec qual :
  grows r0 r -> grows r0 (extend perf sec qual r).
Proof.
  intros ((p & Hp) & (s & Hs) & (q & Hq) & Hg). unfold extend.
  repeat split; cbn; [exists (p ++ perf) | exists (s ++ sec) | exists (q ++ qual) | exact Hg];
    now rewrite ?Hp, ?Hs, ?Hq, <- app_assoc.
Qed.

Lemma grows_suggestion r0 s r : grows r0 r -> grows r0 (add_suggestion s r).
Proof.
  intros (Hp & Hs & Hq & (g & Hg)). repeat split; cbn; auto.
  exists (g ++ [s]). now rewrite Hg, <- app_assoc.
Qed.

Lemma grows_metric r0 key value r : grows r0 r -> grows r0 (set_metric key value r).
Proof. intros H. exact H. Qed.

Lemma cargo_toml_preserves (I : OptimizationReport -> Prop) read_manifest cargo_path :
  (forall s r, I r -> I (add_suggestion s r)) ->
  preserves I (_optimize_cargo_toml read_manifest cargo_path).
Proof.
  intros Hs. unfold _optimize_cargo_toml.
  apply preserves_try; [| intros e; apply preserves_log].
  apply preserves_bind; [apply preserves_call |]. intros content.
  apply preserves_bind; [| intros _];
    apply preserves_when, preserves_update; auto.
Qed.

Lemma rust_builds_preserves (I : OptimizationReport -> Prop) env read_manifest :
  (forall s r, I r -> I (add_suggestion s r)) ->
  preserves I (optimize_rust_builds env read_manifest).
Proof.
  intros Hs. unfold optimize_rust_builds.
  apply preserves_bind; [apply preserves_log |]. intros _.
  apply preserves_for. intros cargo_path. now apply cargo_toml_preserves.
Qed.

(** X5. No method of the optimizer removes or reorders what the report
    holds: after any call, whether it returned or raised, each of the three
    sequences of findings and the sequence of suggestions is what it was
    before the call, with entries appended. *)
Theorem report_is_append_only env read_manifest w w' :
  calls env read_manifest w w' -> grows (report w) (report w').
Proof.
  assert (Hs : forall s r, grows (report w) r -> grows (report w) (add_suggestion s r))
    by (intros; now apply grows_suggestion).
  assert (Hm : forall k v r, grows (report w) r -> grows (report w) (set_metric k v r))
    by (intros; now apply grows_metric).
  destruct 1.
  - apply (preserves_log (grows (report w))), grows_refl.
  - destruct c; cbn [check];
      [eapply preserves_evolves; [apply check_performance_evolves | | apply grows_refl]
      |eapply preserves_evolves; [apply check_security_evolves | | apply grows_refl]
      |eapply preserves_evolves; [apply check_quality_evolves | | apply grows_refl]];
      intros r Hr; now apply grows_extend.
  - eapply preserves_evolves; [apply analyze_code_quality_evolves | | apply grows_refl].
    intros r Hr; now apply grows_extend.
  - apply (elf_sections_preserves (grows (report w))); auto using grows_refl.
  - apply (binary_size_preserves (grows (report w))); auto using grows_refl.
  - apply (hotspot_file_preserves (grows (report w))); auto using grows_refl.
  - apply (hotspots_preserves (grows (report w))); auto using grows_refl.
  - apply (cargo_toml_preserves (grows (report w))); auto using grows_refl.
  - apply (rust_builds_preserves (grows (report w))); auto using grows_refl.
  - apply (report_preserves (grows (report w))); auto using grows_refl.
Qed.

(** An instance of X5: the section analysis, after the code scan. *)
Lemma report_is_append_only_witness :
  let w := snd (analyze_code_quality with_kernel (fresh noon)) in
  let w' := snd (analyze_binary_size with_kernel w) in
  calls with_kernel (fun _ => Raise no_such_file) w w'
  /\ grows (report w) (report w').
Proof.
  cbv zeta. split; [apply call_binary_size |].
  apply (report_is_append_only with_kernel (fun _ => Raise no_such_file)).
  apply call_binary_size.
Defined.

(** X6. The report synthesizer only reads the report: whether it returns or
    raises, findings, suggestions and metrics are what they were. *)
Theorem synthesizer_leaves_the_report w :
  report (snd (generate_optimization_report w)) = report w.
Proof.
  apply (report_preserves (fun r => r = report w)). reflexivity.
Qed.

(** ** The count of other quality issues *)

Lemma neither_minus_both {A} (a b : A -> bool) (l : list A) :
  (Z.of_nat (List.length l) - Z.of_nat (List.length (filter a l))
   - Z.of_nat (List.length (filter b l))
   = Z.of_nat (List.length (filter (fun x => negb (a x) && negb (b x)) l))
     - Z.of_nat (List.length (filter (fun x => a x && b x) l)))%Z.
Proof.
  induction l as [| x l IH]; [reflexivity |].
  cbn [filter List.length]. destruct (a x), (b x); cbn [negb andb List.length]; lia.
Qed.

(** X7. The count of other issues that the quality block shows is the number
    of quality findings whose line holds neither marker, minus the number of
    those whose line holds both "TODO" and "FIXME". So it is not negative
    when no recorded line holds both. *)
Theorem other_count_is_neither_minus_both w :
  let quality := code_issues (report w) in
  let neither f := negb (Str.contains "TODO" (Finding.issue f))
                   && negb (Str.contains "FIXME" (Finding.issue f)) in
  let both f := Str.contains "TODO" (Finding.issue f)
                && Str.contains "FIXME" (Finding.issue f) in
  exists out,
    stdout (snd (generate_optimization_report w)) = stdout w ++ out
    /\ forall count todo_count fixme_count other,
         In (count, todo_count, fixme_count, other) (picked quality_in out) ->
         other = (Z.of_nat (List.length (filter neither quality))
                  - Z.of_nat (List.length (filter both quality)))%Z
         /\ (filter both quality = [] -> (0 <= other)%Z).
Proof.
  cbv zeta.
  destruct (report_says_quality (report w) w eq_refl) as (_ & out & Ho & Hp).
  exists out. split; [exact Ho |]. intros count t f other Hin.
  rewrite Hp in Hin. destruct (List.length (code_issues (report w)) =? 0);
    [contradiction |].
  destruct Hin as [E | []]. injection E as <- <- <- <-.
  rewrite neither_minus_both. split; [reflexivity |].
  intros ->. cbn. lia.
Qed.

(** ** The section analyzer on any dump *)

Lemma scan_line_appends acc line : scan_line acc line = acc ++ scan_line [] line.
Proof.
  unfold scan_line. destruct (Str.contains "CONTENTS" line); [| now rewrite app_nil_r].
  destruct (3 <=? _); [| now rewrite app_nil_r].
  destruct (section_of _) as [[name size] |]; [| now rewrite app_nil_r].
  destruct (_ <? size)%Z; [reflexivity | now rewrite app_nil_r].
Qed.

Lemma scan_lines_flat lines acc :
  fold_left scan_line lines acc = acc ++ flat_map (scan_line []) lines.
Proof.
  revert acc. induction lines as [| l ls IH]; intros acc; cbn.
  - now rewrite app_nil_r.
  - now rewrite IH, scan_line_appends, <- app_assoc.
Qed.

Lemma in_scan_line line section_name size :
  In (section_name, size) (scan_line [] line)
  <-> Str.contains "CONTENTS" line = true
      /\ exists idx size_hex rest,
           Str.split_ws line = idx :: section_name :: size_hex :: rest
           /\ Num.int16 size_hex = Some size
           /\ (1024 * 1024 < size)%Z.
Proof.
  unfold scan_line, section_of. split.
  - destruct (Str.contains "CONTENTS" line); [| contradiction].
    destruct (Str.split_ws line) as [| idx [| nm [| hex rest]]]; cbn; try contradiction.
    destruct (Num.int16 hex) as [sz |] eqn:Ei; [| contradiction].
    destruct (1048576 <? sz)%Z eqn:E; [| contradiction].
    intros [H | []]. injection H as <- <-. split; [reflexivity |].
    exists idx, hex, rest. apply Z.ltb_lt in E. auto.
  - intros (-> & idx & hex & rest & -> & Hi & Hs).
    cbn [List.length Nat.leb nth_error]. rewrite Hi.
    apply Z.ltb_lt in Hs. rewrite Hs. now left.
Qed.

(** X8. The sections the analyzer reports are exactly those of the lines of
    the dump that hold the marker CONTENTS, have at least three fields and a
    third field that reads as a base-16 integer above 1 MiB; the second
    field is the name of the section. *)
Theorem reported_sections_are_the_large_ones objdump_output section_name size :
  In (section_name, size) (large_sections objdump_output)
  <-> exists line idx size_hex rest,
        In line (Str.split_on Char.newline objdump_output)
        /\ Str.contains "CONTENTS" line = true
        /\ Str.split_ws line = idx :: section_name :: size_hex :: rest
        /\ Num.int16 size_hex = Some size
        /\ (1024 * 1024 < size)%Z.
Proof.
  unfold large_sections. rewrite scan_lines_flat. cbn [app].
  rewrite in_flat_map. split.
  - intros (line & Hl & Hin). apply in_scan_line in Hin.
    destruct Hin as (Hm & idx & hex & rest & Hp & Hi & Hs).
    exists line, idx, hex, rest. auto.
  - intros (line & idx & hex & rest & Hl & Hm & Hp & Hi & Hs).
    exists line. split; [exact Hl |]. apply in_scan_line. split; [exact Hm |].
    exists idx, hex, rest. auto.
Qed.

Lemma section_loop sections w :
  let body := fun '(section_name, size) =>
    kb <- match Num.int_div_1024 size with
          | Some x => ret (Num.fmt_1f x)
          | None => raise overflow
          end ;;
    update_report (add_suggestion
      {| Suggestion.category := "binary_size";
         Suggestion.issue := "Large section " +++ section_name +++ ": " +++ kb
                             +++ "KB";
         Suggestion.suggestion := "Investigate if " +++ section_name
                                  +++ " can be optimized or compressed";
         Suggestion.impact := "medium" |}) in
  exists done rest new,
    sections = done ++ rest
    /\ report (snd (for_each sections body w)) = suggest new (report w)
    /\ Forall2 describes new done
    /\ Forall renders done
    /\ ((fst (for_each sections body w) = Ok tt /\ rest = [])
        \/ (fst (for_each sections body w) = Raise overflow
            /\ exists section rest', rest = section :: rest' /\ ~ renders section)).
Proof.
  cbv zeta. revert w. induction sections as [| [name size] sections IH]; intros w.
  - exists [], [], []. cbn. rewrite suggest_nil. repeat split; auto.
  - cbn [for_each]. unfold bind at 1.
    destruct (Num.int_div_1024 size) as [x |] eqn:E.
    + cbn [bind ret update_report fst snd].
      match goal with |- context [for_each sections ?b ?w1] =>
        destruct (IH w1) as (done & rest & new & Hd & Hr & Hf & Hre & Hend) end.
      eexists ((name, size) :: done), rest, (_ :: new).
      split; [cbn; now rewrite Hd |]. split.
      * rewrite Hr. cbn [report]. unfold suggest, add_suggestion. cbn.
        now rewrite <- app_assoc.
      * split; [constructor; [| exact Hf] |].
        { repeat split. now eexists. }
        split; [constructor; [| exact Hre] |].
        { unfold renders. cbn. now rewrite E. }
        exact Hend.
    + exists [], ((name, size) :: sections), []. cbn. rewrite suggest_nil.
      repeat split; auto. right. split; [reflexivity |].
      exists (name, size), sections. split; [reflexivity |].
      unfold renders. cbn. now rewrite E.
Qed.

(** X9. On any dump, the section analyzer goes through the sections to
    report in the order of the dump and appends the suggestion of each, of
    medium impact, until it meets one whose size in KB no float can hold;
    there it raises OverflowError, the suggestions appended so far staying
    in the report. It returns when it meets none, with one suggestion per
    section. Nothing else in the report changes. *)
Theorem section_analyzer_reports_in_order objdump_output w :
  exists done rest new,
    large_sections objdump_output = done ++ rest
    /\ report (snd (_analyze_elf_sections objdump_output w))
       = suggest new (report w)
    /\ Forall2 describes new done
    /\ Forall renders done
    /\ ((fst (_analyze_elf_sections objdump_output w) = Ok tt /\ rest = [])
        \/ (fst (_analyze_elf_sections objdump_output w) = Raise overflow
            /\ exists section rest', rest = section :: rest' /\ ~ renders section)).
Proof. exact (section_loop (large_sections objdump_output) w). Qed.

(** ** The kernel image *)

Lemma bind_ok (m k : M unit) w :
  fst (m w) = Ok tt -> (m ;; k) w = k (snd (m w)).
Proof.
  intros H. unfold bind. destruct (m w) as [[[] | e] w1]; [reflexivity | discriminate].
Qed.

Lemma dict_get_set {V} (d : Dict.t V) key v : Dict.get (Dict.set d key v) key = Some v.
Proof.
  induction d as [| [k v0] d IH]; cbn.
  - now rewrite String.eqb_refl.
  - destruct (String.eqb k key) eqn:E; cbn; now rewrite E.
Qed.

Lemma dict_set_keeps_keys {V} (d : Dict.t V) key v :
  Dict.get d key <> None -> map fst (Dict.set d key v) = map fst d.
Proof.
  induction d as [| [k v0] d IH]; cbn; [congruence |].
  destruct (String.eqb k key); cbn; [reflexivity |].
  intros H. now rewrite IH.
Qed.

(** X10. When the kernel image exists, the binary analysis records its size
    under the key kernel_size, whether the analysis then returns or raises:
    looking the key up gives the size, and a key that was already there
    keeps its place, so the metrics do not grow on a second run. *)
Theorem kernel_size_is_recorded env w size :
  kernel_stat env = Some size ->
  let after := metrics (report (snd (analyze_binary_size env w))) in
  Dict.get after "kernel_size" = Some size
  /\ (Dict.get (metrics (report w)) "kernel_size" <> None ->
      map fst after = map fst (metrics (report w))).
Proof.
  intros Hk. cbv zeta.
  assert (H : metrics (report (snd (analyze_binary_size env w)))
              = Dict.set (metrics (report w)) "kernel_size" size).
  { unfold analyze_binary_size. rewrite Hk.
    rewrite bind_ok by reflexivity. rewrite bind_ok by reflexivity.
    set (w1 := snd (update_report (set_metric "kernel_size" size)
                      (snd (log "Analyzing binary sizes" "HEADER" w)))).
    change (Dict.set (metrics (report w)) "kernel_size" size)
      with (metrics (report w1)).
    refine ((_ : preserves (fun r => metrics r = metrics (report w1)) _) w1 eq_refl).
    apply preserves_bind.
    - apply preserves_when, preserves_bind; [apply preserves_fmt |].
      intros mb. apply preserves_update. auto.
    - intros _. destruct (run_command env _) as [[success out] err].
      apply preserves_when, elf_sections_preserves. auto. }
  rewrite H. split; [apply dict_get_set | apply dict_set_keeps_keys].
Qed.

(** An instance of X10: a kernel image of 12 MiB. *)
Lemma kernel_size_is_recorded_witness :
  kernel_stat with_kernel = Some (12 * 1024 * 1024)%N
  /\ Dict.get (metrics (report (snd (analyze_binary_size with_kernel (fresh noon)))))
              "kernel_size"
     = Some (12 * 1024 * 1024)%N.
Proof.
  split; [reflexivity |].
  apply (kernel_size_is_recorded with_kernel (fresh noon) (12 * 1024 * 1024)%N).
  reflexivity.
Defined.




(** ** Suggestions, counted *)

Lemma suggests_ret P : suggests (ret tt) 0 P.
Proof.
  intros w. split; [reflexivity |]. exists []. cbn. rewrite suggest_nil. auto.
Qed.

Lemma suggests_log message level P : suggests (log message level) 0 P.
Proof.
  intros w. split; [reflexivity |]. exists []. cbn. rewrite suggest_nil. auto.
Qed.

Lemma suggests_update s (P : Suggestion.t -> Prop) :
  P s -> suggests (update_report (add_suggestion s)) 1 P.
Proof.
  intros H w. split; [reflexivity |]. exists [s]. cbn. auto.
Qed.

Lemma suggests_more m b b' P : suggests m b P -> b <= b' -> suggests m b' P.
Proof.
  intros H Hb w. destruct (H w) as (Hv & new & Hr & Hl & Hp).
  split; [exact Hv |]. exists new. repeat split; auto. lia.
Qed.

Lemma suggests_seq m k b1 b2 P :
  suggests m b1 P -> suggests k b2 P -> suggests (m ;; k) (b1 + b2) P.
Proof.
  intros Hm Hk w. destruct (Hm w) as (Hv & new & Hr & Hl & Hp).
  rewrite (bind_ok m k w Hv).
  destruct (Hk (snd (m w))) as (Hv' & new' & Hr' & Hl' & Hp').
  split; [exact Hv' |]. exists (new ++ new').
  rewrite Hr', Hr, suggest_suggest, length_app. repeat split; [lia |].
  apply Forall_app. auto.
Qed.

Lemma suggests_when (b : bool) m bound P :
  suggests m bound P -> suggests (when b m) bound P.
Proof.
  intros H. destruct b; cbn; [exact H |].
  apply (suggests_more _ 0); [apply suggests_ret | lia].
Qed.

Lemma suggests_for {A} (xs : list A) body (bound : A -> nat) P :
  (forall x, suggests (body x) (bound x) P) ->
  suggests (for_each xs body) (list_sum (map bound xs)) P.
Proof.
  intros Hb. induction xs as [| x xs IH]; cbn; [apply suggests_ret |].
  apply suggests_seq; auto.
Qed.

(** A [try] around reading a file: the body runs on the text when the file
    can be read, the handler logs when it cannot. *)
Lemma suggests_read (x : result string) (body : string -> M unit) message bound P :
  (forall content, suggests (body content) bound P) ->
  suggests (try_except (content <- call x ;; body content)
              (fun e => log (message e) "WARNING")) bound P.
Proof.
  intros Hb w. destruct x as [content | e].
  - destruct (Hb content w) as (Hv & H). unfold try_except, bind, call.
    destruct (body content w) as [[[] | e] w1]; [| discriminate].
    split; [reflexivity | exact H].
  - exact (suggests_more _ 0 bound P (suggests_log (message e) "WARNING" P)
             (Nat.le_0_l _) w).
Qed.

Lemma hotspot_file_suggests env file_path description :
  suggests (_analyze_hotspot_file env file_path description) 3 performance_advice.
Proof.
  unfold _analyze_hotspot_file.
  apply (suggests_read (read_text env file_path)
           (fun content => _) (fun e => _) 3 performance_advice).
  intros content. cbv zeta.
  apply (suggests_seq _ _ 1 2); [| apply (suggests_seq _ _ 1 1)];
    apply suggests_when, suggests_update; split; auto.
Qed.

Lemma list_sum_flat {A B} (F : A -> list B) (g : B -> nat) xs :
  list_sum (map (fun x => list_sum (map g (F x))) xs)
  = list_sum (map g (flat_map F xs)).
Proof.
  induction xs as [| x xs IH]; [reflexivity |].
  cbn [flat_map map]. rewrite map_app, list_sum_app, <- IH. reflexivity.
Qed.

Lemma list_sum_filter {A} (p : A -> bool) xs k :
  list_sum (map (fun x => if p x then k else 0) xs) = k * List.length (filter p xs).
Proof.
  unfold list_sum. induction xs as [| x xs IH]; cbn [map filter fold_right].
  - cbn. lia.
  - destruct (p x); cbn [List.length]; rewrite ?Nat.mul_succ_r; lia.
Qed.

Lemma hotspots_suggest env :
  suggests (check_performance_hotspots env)
           (3 * List.length (filter (is_file env) (hotspot_entries env)))
           performance_advice.
Proof.
  unfold check_performance_hotspots.
  eapply suggests_more.
  - apply (suggests_seq _ _ 0); [apply suggests_log |].
    apply suggests_for with
      (bound := fun pd : string * string =>
                  list_sum (map (fun fp => if is_file env fp then 3 else 0)
                                (glob env (fst pd +++ "*")))).
    intros [pattern description]. cbn [fst].
    apply suggests_for with
      (bound := fun fp => if is_file env fp then 3 else 0).
    intros fp. destruct (is_file env fp); cbn [when];
      [apply hotspot_file_suggests | apply suggests_ret].
  - cbn [plus]. rewrite <- list_sum_filter. unfold hotspot_entries.
    rewrite <- (list_sum_flat (fun pattern => glob env (pattern +++ "*"))).
    cbn. lia.
Qed.

(** X12. The hotspot sweep always returns. All it does to the report is to
    append suggestions of category performance, of medium or high impact,
    at most three for each regular file among the entries its patterns
    match; an entry that is not a regular file gives none. *)
Theorem hotspot_sweep_is_bounded env :
  suggests (check_performance_hotspots env)
           (3 * List.length (filter (is_file env) (hotspot_entries env)))
           performance_advice.
Proof. exact (hotspots_suggest env). Qed.

(** ** The manifests *)

Lemma when_not_suggest (b : bool) s :
  evolves (when (negb b) (update_report (add_suggestion s)))
          (suggest (if b then [] else [s])).
Proof.
  eapply evolves_ext; [apply when_suggest |]. intros r. now destruct b.
Qed.

(** X13. For a manifest that can be read, the manifest check returns and
    appends: the release-profile suggestion, of medium impact, exactly when
    the text does not contain [profile.release]; then the panic suggestion,
    of low impact, exactly when the text does not contain the abort-on-panic
    setting. The two are decided independently, both name the manifest by
    its path in the project, and nothing else is appended. *)
Theorem manifest_check_reports_what_is_missing read_manifest cargo_path content w :
  read_manifest cargo_path = Ok content ->
  fst (_optimize_cargo_toml read_manifest cargo_path w) = Ok tt
  /\ exists profile panic,
       report (snd (_optimize_cargo_toml read_manifest cargo_path w))
       = suggest (profile ++ panic) (report w)
       /\ ((Str.contains "[profile.release]" content = true /\ profile = [])
           \/ (Str.contains "[profile.release]" content = false
               /\ exists s, profile = [s]
                    /\ Suggestion.category s = "rust_optimization"
                    /\ Suggestion.impact s = "medium"
                    /\ Suggestion.issue s
                       = relative cargo_path +++ ": Missing release profile optimization"))
       /\ ((Str.contains panic_abort content = true /\ panic = [])
           \/ (Str.contains panic_abort content = false
               /\ exists s, panic = [s]
                    /\ Suggestion.category s = "rust_optimization"
                    /\ Suggestion.impact s = "low"
                    /\ Suggestion.issue s
                       = relative cargo_path +++ ": Using default panic strategy")).
Proof.
  intros Hread.
  assert (H : evolves (_optimize_cargo_toml read_manifest cargo_path)
                (fun r =>
                   suggest
                     ((if Str.contains "[profile.release]" content then []
                       else [{| Suggestion.category := "rust_optimization";
                                Suggestion.issue :=
                                  relative cargo_path
                                  +++ ": Missing release profile optimization";
                                Suggestion.suggestion :=
                                  "Add [profile.release] section with lto = true, codegen-units = 1";
                                Suggestion.impact := "medium" |}])
                      ++ (if Str.contains panic_abort content then []
                          else [{| Suggestion.category := "rust_optimization";
                                   Suggestion.issue :=
                                     relative cargo_path
                                     +++ ": Using default panic strategy";
                                   Suggestion.suggestion :=
                                     "Add panic = " +++ Rules.q +++ "abort"
                                     +++ Rules.q +++ " for smaller binary size";
                                   Suggestion.impact := "low" |}])) r)).
  { unfold _optimize_cargo_toml. rewrite Hread.
    apply evolves_try. unfold bind at 1, call. cbv beta iota zeta.
    eapply evolves_ext.
    - apply evolves_seq; apply when_not_suggest.
    - intros r. cbv beta. now rewrite suggest_suggest. }
  destruct (evolves_run _ _ w H) as (Hv & Hr & _). split; [exact Hv |].
  do 2 eexists. split; [exact Hr |]. split.
  - destruct (Str.contains "[profile.release]" content);
      [left; auto | right; split; [reflexivity |]; eexists; auto].
  - destruct (Str.contains panic_abort content);
      [left; auto | right; split; [reflexivity |]; eexists; auto].
Qed.

(** An instance of X13: a manifest with a release profile only. *)
Lemma manifest_check_reports_what_is_missing_witness :
  exists s,
    suggestions (report (snd (_optimize_cargo_toml (fun _ => Ok sample_manifest)
                                cargo_toml (fresh noon))))
    = [s]
    /\ Suggestion.impact s = "low"
    /\ Suggestion.issue s = "drivers/Cargo.toml: Using default panic strategy".
Proof.
  destruct (manifest_check_reports_what_is_missing
              (fun _ => Ok sample_manifest) cargo_toml sample_manifest
              (fresh noon) eq_refl)
    as (_ & profile & panic & Hr & [(_ & ->) | (Hc & _)] & [(Hc' & _) | (_ & s & -> & _ & Hi & Hs)]);
    try (vm_compute in Hc; discriminate); try (vm_compute in Hc'; discriminate).
  exists s. rewrite Hr. auto.
Defined.

Lemma cargo_toml_suggests read_manifest cargo_path :
  suggests (_optimize_cargo_toml read_manifest cargo_path) 2 rust_advice.
Proof.
  unfold _optimize_cargo_toml.
  apply (suggests_read (read_manifest cargo_path)
           (fun content => _) (fun e => _) 2 rust_advice).
  intros content.
  apply (suggests_seq _ _ 1 1); apply suggests_when, suggests_update; split; auto.
Qed.

(** X14. The sweep over the manifests always returns, whatever can or cannot
    be read. All it does to the report is to append suggestions of category
    rust_optimization, of medium or low impact, at most two for each
    manifest found. *)
Theorem manifest_sweep_is_bounded env read_manifest :
  suggests (optimize_rust_builds env read_manifest)
           (2 * List.length (glob env "**/Cargo.toml"))
           rust_advice.
Proof.
  unfold optimize_rust_builds. eapply suggests_more.
  - apply (suggests_seq _ _ 0); [apply suggests_log |].
    apply suggests_for with (bound := fun _ => 2).
    intros cargo_path. apply cargo_toml_suggests.
  - cbn [plus]. unfold list_sum.
    induction (glob env "**/Cargo.toml") as [| x xs IH];
      cbn [map fold_right List.length]; rewrite ?Nat.mul_succ_r; lia.
Qed.

(** ** Files that cannot be read *)

(** X15. A hotspot file or a manifest that cannot be read is skipped with a
    warning: the method returns, the report stays as it was, and one line is
    printed, a warning that names the file and gives the message of the
    exception. *)
Theorem unreadable_file_is_logged_and_skipped env read_manifest file_path
  description e w :
  read_text env file_path = Raise e ->
  read_manifest file_path = Raise e ->
  (_analyze_hotspot_file env file_path description w
   = (Ok tt,
      {| report := report w;
         stdout := stdout w
                   ++ [warning_line w ("Error analyzing hotspot " +++ full file_path
                                       +++ ": " +++ message e)];
         clock := clock w; ticks := S (ticks w) |}))
  /\ (_optimize_cargo_toml read_manifest file_path w
      = (Ok tt,
         {| report := report w;
            stdout := stdout w
                      ++ [warning_line w ("Error analyzing " +++ full file_path
                                          +++ ": " +++ message e)];
            clock := clock w; ticks := S (ticks w) |})).
Proof.
  intros Hh Hm. unfold _analyze_hotspot_file, _optimize_cargo_toml.
  rewrite Hh, Hm. split; reflexivity.
Qed.

(** An instance of X15: a path that no reader can open. *)
Lemma unreadable_file_is_logged_and_skipped_witness :
  fst (_analyze_hotspot_file (one_file "x") pmm_c "Memory management" (fresh noon))
  = Ok tt
  /\ report (snd (_analyze_hotspot_file (one_file "x") pmm_c "Memory management"
                    (fresh noon)))
     = report (fresh noon).
Proof.
  destruct (unreadable_file_is_logged_and_skipped (one_file "x")
              (fun _ => Raise no_such_file) pmm_c "Memory management"
              no_such_file (fresh noon) eq_refl eq_refl) as (H & _).
  rewrite H. split; reflexivity.
Defined.

(** ** Grouping the suggestions *)

Lemma dict_get_set_other {V} (d : Dict.t V) key key' v :
  key' <> key -> Dict.get (Dict.set d key v) key' = Dict.get d key'.
Proof.
  intros Hne. induction d as [| [k v0] d IH]; cbn.
  - destruct (String.eqb key key') eqn:E; [| reflexivity].
    apply String.eqb_eq in E. congruence.
  - destruct (String.eqb k key) eqn:E; cbn.
    + apply String.eqb_eq in E. subst k.
      destruct (String.eqb key key') eqn:E'; [| reflexivity].
      apply String.eqb_eq in E'. congruence.
    + now rewrite IH.
Qed.

Lemma dict_set_new_key {V} (d : Dict.t V) key v :
  Dict.get d key = None -> map fst (Dict.set d key v) = map fst d ++ [key].
Proof.
  induction d as [| [k v0] d IH]; cbn; [reflexivity |].
  destruct (String.eqb k key); [discriminate |]. intros H. cbn. now rewrite IH.
Qed.

Lemma dict_get_keys {V} (d : Dict.t V) key :
  existsb (String.eqb key) (map fst d)
  = match Dict.get d key with Some _ => true | None => false end.
Proof.
  induction d as [| [k v0] d IH]; cbn; [reflexivity |].
  rewrite (String.eqb_sym key k). destruct (String.eqb k key); [reflexivity | exact IH].
Qed.

Lemma fold_left_snoc {A B} (f : A -> B -> A) l x a :
  fold_left f (l ++ [x]) a = f (fold_left f l a) x.
Proof. now rewrite fold_left_app. Qed.

Lemma first_seen_nodup keys : NoDup (first_seen keys).
Proof.
  unfold first_seen. induction keys as [| k keys IH] using rev_ind; [constructor |].
  rewrite fold_left_snoc.
  destruct (existsb (String.eqb k) _) eqn:E; [exact IH |].
  apply NoDup_app; [exact IH | repeat constructor; intros [] |].
  intros x Hx [Ex | []]. subst x.
  assert (existsb (String.eqb k) (fold_left
            (fun seen key => if existsb (String.eqb key) seen then seen
                             else seen ++ [key]) keys []) = true).
  { apply existsb_exists. exists k. split; [exact Hx | apply String.eqb_refl]. }
  congruence.
Qed.

Lemma group_snoc ss s :
  group_by_category (ss ++ [s])
  = match Dict.get (group_by_category ss) (Suggestion.category s) with
    | Some group =>
        Dict.set (group_by_category ss) (Suggestion.category s) (group ++ [s])
    | None =>
        Dict.set (Dict.set (group_by_category ss) (Suggestion.category s) [])
                 (Suggestion.category s) [s]
    end.
Proof.
  unfold group_by_category at 1. rewrite fold_left_snoc.
  fold (group_by_category ss). cbv zeta.
  destruct (Dict.get (group_by_category ss) (Suggestion.category s))
    as [group |] eqn:E.
  - now rewrite E.
  - now rewrite dict_get_set.
Qed.

Lemma first_seen_snoc keys key :
  first_seen (keys ++ [key])
  = if existsb (String.eqb key) (first_seen keys) then first_seen keys
    else first_seen keys ++ [key].
Proof. unfold first_seen. now rewrite fold_left_snoc. Qed.

Lemma filter_none {A} (p : A -> bool) l : existsb p l = false -> filter p l = [].
Proof.
  induction l as [| x xs IH]; [reflexivity |]. cbn. intros H.
  apply orb_false_elim in H. destruct H as (-> & H). auto.
Qed.

Lemma grouping_invariant ss :
  map fst (group_by_category ss) = first_seen (map Suggestion.category ss)
  /\ forall category,
       Dict.get (group_by_category ss) category
       = if existsb (in_category category) ss
         then Some (filter (in_category category) ss)
         else None.
Proof.
  induction ss as [| s ss (Hk & Hg)] using rev_ind.
  - split; [reflexivity | intros c; reflexivity].
  - rewrite map_app. cbn [map]. rewrite group_snoc, first_seen_snoc.
    set (k := Suggestion.category s).
    rewrite <- Hk, dict_get_keys.
    assert (Hgk := Hg k).
    assert (Hsnoc : forall c,
              (if existsb (in_category c) (ss ++ [s])
               then Some (filter (in_category c) (ss ++ [s])) else None)
              = if String.eqb k c
                then Some (filter (in_category c) ss ++ [s])
                else if existsb (in_category c) ss
                     then Some (filter (in_category c) ss) else None).
    { intros c. rewrite existsb_app, filter_app. cbn [existsb filter].
      unfold in_category at 2 4. fold k.
      destruct (String.eqb k c); [now rewrite orb_true_r |].
      now rewrite orb_false_r, app_nil_r. }
    destruct (Dict.get (group_by_category ss) k) as [group |] eqn:Ek.
    + split; [apply dict_set_keeps_keys; congruence |].
      intros c. rewrite Hsnoc. destruct (String.eqb k c) eqn:Ec.
      * apply String.eqb_eq in Ec. subst c. rewrite dict_get_set.
        destruct (existsb (in_category k) ss); congruence.
      * rewrite dict_get_set_other
          by (intros ->; now rewrite String.eqb_refl in Ec).
        apply Hg.
    + split.
      * rewrite dict_set_keeps_keys by (rewrite dict_get_set; discriminate).
        now apply dict_set_new_key.
      * intros c. rewrite Hsnoc. destruct (String.eqb k c) eqn:Ec.
        -- apply String.eqb_eq in Ec. subst c. rewrite dict_get_set.
           destruct (existsb (in_category k) ss) eqn:Ee; [discriminate |].
           now rewrite (filter_none _ _ Ee).
        -- rewrite !dict_get_set_other
             by (intros ->; now rewrite String.eqb_refl in Ec).
           apply Hg.
Qed.

(** X16. Grouping the suggestions for the report loses and invents nothing:
    the categories come in the order each is first seen, none twice; under a
    category are exactly the suggestions of that category, in the order they
    were appended; and a category no suggestion has is not a key. *)
Theorem grouping_keeps_every_suggestion_in_order ss :
  map fst (group_by_category ss) = first_seen (map Suggestion.category ss)
  /\ NoDup (map fst (group_by_category ss))
  /\ forall category,
       Dict.get (group_by_category ss) category
       = if existsb (in_category category) ss
         then Some (filter (in_category category) ss)
         else None.
Proof.
  destruct (grouping_invariant ss) as (Hk & Hg).
  split; [exact Hk |]. split; [rewrite Hk; apply first_seen_nodup | exact Hg].
Qed.

(** ** What the report shows of the issues and the suggestions *)

Lemma after_blocks_says {X} (sel : output -> option X) r (ms : Dict.t N)
  (o1 o2 o3 o4 o5 : output) (b1 b2 : bool) :
  sel MetricsTitle = None -> (forall mb, sel (KernelSizeLine mb) = None) ->
  sel o1 = None -> sel o2 = None -> sel o3 = None ->
  sel o4 = None -> sel o5 = None ->
  says sel
    (when (negb (List.length ms =? 0))
       (print MetricsTitle ;;
        for_each ms (fun '(metric, value) =>
          when (String.eqb metric "kernel_size")
            (mb <- match Num.int_div_1024 (Z.of_N value) with
                   | Some x => ret (Num.fmt_1f (Num.float_div_1024 x))
                   | None => raise overflow
                   end ;;
             print (KernelSizeLine mb)))) ;;
     print o1 ;;
     (if b1 then print o2 else if b2 then print o3 else print o4) ;;
     print o5) r [].
Proof.
  intros Hm Hk H1 H2 H3 H4 H5.
  apply says_then.
  - eapply says_ext; [apply says_when |].
    + eapply says_after; [apply shows_print |].
      apply says_for. intros [metric value].
      eapply says_ext; [apply says_when |].
      * apply says_then; [apply says_fmt |]. intros mb.
        eapply says_ext; [apply shows_says, shows_print |].
        cbn. now rewrite Hk.
      * now destruct (String.eqb metric "kernel_size").
    + cbn. rewrite Hm. now destruct (negb _).
  - intros _. eapply says_ext.
    + say; [say |]. say; [| say]. say; [say |]. say; say.
    + cbn. rewrite H1, H5. destruct b1, b2; cbn; now rewrite ?H2, ?H3, ?H4.
Qed.

Lemma report_says_blocks {X} (sel : output -> option X) r :
  (forall s, sel (Text s) = None) ->
  sel MetricsTitle = None -> (forall mb, sel (KernelSizeLine mb) = None) ->
  (forall a b c d e, sel (SummaryBlock a b c d e) = None) ->
  (forall v, sel (VerdictBlock v) = None) -> sel ReportEnd = None ->
  says sel generate_optimization_report r
    (picked sel
       ([ReportTitle]
        ++ (if List.length (performance_issues r) =? 0 then []
            else [PerformanceBlock (List.length (performance_issues r))
                    (map shown (firstn 10 (performance_issues r)))])
        ++ (if List.length (security_issues r) =? 0 then []
            else [SecurityBlock (List.length (security_issues r))
                    (map shown (security_issues r))])
        ++ (if List.length (code_issues r) =? 0 then []
            else [QualityBlock (List.length (code_issues r))
                    (count_if (fun issue => Str.contains "TODO" (Finding.issue issue))
                              (code_issues r))
                    (count_if (fun issue => Str.contains "FIXME" (Finding.issue issue))
                              (code_issues r))
                    (Z.of_nat (List.length (code_issues r))
                     - Z.of_nat (count_if (fun issue =>
                                             Str.contains "TODO" (Finding.issue issue))
                                          (code_issues r))
                     - Z.of_nat (count_if (fun issue =>
                                             Str.contains "FIXME" (Finding.issue issue))
                                          (code_issues r)))%Z])
        ++ (if List.length (suggestions r) =? 0 then []
            else [SuggestionBlock
                    (map (fun '(category, group) =>
                            (category,
                             map (fun suggestion =>
                                    (Suggestion.impact suggestion,
                                     Suggestion.suggestion suggestion))
                                 (firstn 5 group)))
                         (group_by_category (suggestions r)))]))).
Proof.
  intros Ht Hm Hk Hs Hv He.
  unfold generate_optimization_report. eapply says_ext.
  - eapply says_after; [apply shows_log; exact Ht |].
    eapply says_after; [apply shows_print |]. apply says_get. cbv zeta.
    eapply says_after; [apply shows_when, shows_print |].
    eapply says_after; [apply shows_when, shows_print |].
    eapply says_after; [apply shows_when, shows_print |].
    eapply says_after; [apply shows_when, shows_print |].
    apply after_blocks_says; auto.
  - destruct (List.length (performance_issues r) =? 0),
      (List.length (security_issues r) =? 0),
      (List.length (code_issues r) =? 0),
      (List.length (suggestions r) =? 0);
      unfold picked; cbn [negb app flat_map];
      repeat rewrite app_nil_r; repeat rewrite <- app_assoc; reflexivity.
Qed.



(** X18. The block of suggestions lists the categories in the order each is
    first seen among the suggestions, and under each category at most five
    entries. *)
Theorem suggestion_block_lists_five_per_category w :
  exists out,
    stdout (snd (generate_optimization_report w)) = stdout w ++ out
    /\ forall by_category,
         In by_category (picked suggestion_block_in out) ->
         map fst by_category
         = first_seen (map Suggestion.category (suggestions (report w)))
         /\ Forall (fun group => List.length (snd group) <= 5) by_category.
Proof.
  destruct (report_says_blocks suggestion_block_in (report w)) with (w := w)
    as (_ & out & Ho & Hp); try reflexivity.
  exists out. split; [exact Ho |]. intros by_category Hin.
  rewrite Hp in Hin. clear Hp Ho.
  assert (H : by_category
              = map (fun '(category, group) =>
                       (category,
                        map (fun suggestion =>
                               (Suggestion.impact suggestion,
                                Suggestion.suggestion suggestion))
                            (firstn 5 group)))
                    (group_by_category (suggestions (report w)))).
  { destruct (List.length (performance_issues (report w)) =? 0),
      (List.length (security_issues (report w)) =? 0),
      (List.length (code_issues (report w)) =? 0),
      (List.length (suggestions (report w)) =? 0);
      unfold picked in Hin; cbn [flat_map suggestion_block_in app] in Hin;
      repeat (destruct Hin as [Hin | Hin]); try contradiction;
      now symmetry. }
  subst by_category. split.
  - destruct (grouping_invariant (suggestions (report w))) as (<- & _).
    rewrite map_map. apply map_ext. now intros [category group].
  - apply Forall_forall. intros g Hg. apply in_map_iff in Hg.
    destruct Hg as ([category group] & <- & _). cbn [snd].
    rewrite length_map, length_firstn. lia.
Qed.

(** ** What the analyses print, and a whole run *)

Lemma quiet_ret {A} (a : A) : quiet (ret a).
Proof. intros w. exists []. cbn. now rewrite app_nil_r. Qed.

Lemma quiet_raise {A} e : quiet (@raise A e).
Proof. intros w. exists []. cbn. now rewrite app_nil_r. Qed.

Lemma quiet_call {A} (x : result A) : quiet (call x).
Proof. intros w. exists []. cbn. now rewrite app_nil_r. Qed.

Lemma quiet_update f : quiet (update_report f).
Proof. intros w. exists []. cbn. now rewrite app_nil_r. Qed.

Lemma quiet_log message level : quiet (log message level).
Proof. intros w. eexists [_]. reflexivity. Qed.

Lemma quiet_bind {A B} (m : M A) (f : A -> M B) :
  quiet m -> (forall a, quiet (f a)) -> quiet (bind m f).
Proof.
  intros Hm Hf w. unfold bind. destruct (Hm w) as (l1 & H1).
  destruct (m w) as [[a | e] w1]; cbn [snd] in *.
  - destruct (Hf a w1) as (l2 & H2). exists (l1 ++ l2).
    now rewrite H2, H1, map_app, app_assoc.
  - now exists l1.
Qed.

Lemma quiet_try {A} (m : M A) h :
  quiet m -> (forall e, quiet (h e)) -> quiet (try_except m h).
Proof.
  intros Hm Hh w. unfold try_except. destruct (Hm w) as (l1 & H1).
  destruct (m w) as [[a | e] w1]; cbn [snd] in *.
  - now exists l1.
  - destruct (Hh e w1) as (l2 & H2). exists (l1 ++ l2).
    now rewrite H2, H1, map_app, app_assoc.
Qed.

Lemma quiet_when (b : bool) m : quiet m -> quiet (when b m).
Proof. intros H. destruct b; [exact H | apply quiet_ret]. Qed.

Lemma quiet_for {A} (xs : list A) body :
  (forall x, quiet (body x)) -> quiet (for_each xs body).
Proof.
  intros Hb. induction xs as [| x xs IH]; cbn [for_each];
    [apply quiet_ret | apply quiet_bind; auto].
Qed.

Lemma quiet_fmt (x : option Num.float) (g : Num.float -> string) :
  quiet (match x with Some y => ret (g y) | None => raise overflow end).
Proof. destruct x; [apply quiet_ret | apply quiet_raise]. Qed.

Ltac hush :=
  repeat first
    [ apply quiet_ret | apply quiet_raise | apply quiet_call
    | apply quiet_update | apply quiet_log | apply quiet_fmt
    | apply quiet_when
    | apply quiet_bind; [| intros ?]
    | apply quiet_try; [| intros ?]
    | apply quiet_for; intros [] ].

Lemma check_quiet c file_path line_num line :
  quiet (check c file_path line_num line).
Proof.
  destruct c; cbn [check];
    unfold _check_performance_patterns, _check_security_patterns,
      _check_quality_patterns; hush.
Qed.

Lemma code_quality_quiet env : quiet (analyze_code_quality env).
Proof.
  unfold analyze_code_quality. hush.
Qed.

Lemma elf_sections_quiet objdump_output :
  quiet (_analyze_elf_sections objdump_output).
Proof. unfold _analyze_elf_sections. hush. Qed.

Lemma binary_size_quiet env : quiet (analyze_binary_size env).
Proof.
  unfold analyze_binary_size. apply quiet_bind; [apply quiet_log |]. intros _.
  destruct (kernel_stat env) as [kernel_size |]; [| apply quiet_ret].
  apply quiet_bind; [apply quiet_update |]. intros _.
  apply quiet_bind; [hush |]. intros _.
  destruct (run_command env _) as [[success out] err].
  apply quiet_when, elf_sections_quiet.
Qed.

Lemma hotspot_file_quiet env file_path description :
  quiet (_analyze_hotspot_file env file_path description).
Proof. unfold _analyze_hotspot_file. hush. Qed.

Lemma hotspots_quiet env : quiet (check_performance_hotspots env).
Proof.
  unfold check_performance_hotspots. apply quiet_bind; [apply quiet_log |].
  intros _. apply quiet_for. intros [pattern description].
  apply quiet_for. intros file_path. apply quiet_when, hotspot_file_quiet.
Qed.

Lemma cargo_toml_quiet read_manifest cargo_path :
  quiet (_optimize_cargo_toml read_manifest cargo_path).
Proof. unfold _optimize_cargo_toml. hush. Qed.

Lemma rust_builds_quiet env read_manifest :
  quiet (optimize_rust_builds env read_manifest).
Proof.
  unfold optimize_rust_builds. apply quiet_bind; [apply quiet_log |].
  intros _. apply quiet_for. intros cargo_path. apply cargo_toml_quiet.
Qed.

(** X19. The analyses print through the log only: whatever the tree holds,
    and whether they return or raise, the code scan, the binary analysis,
    the hotspot sweep and the manifest sweep add to the output nothing but
    log lines; no block of the report comes from them. *)
Theorem analyses_print_log_lines_only env read_manifest :
  quiet (analyze_code_quality env)
  /\ quiet (analyze_binary_size env)
  /\ quiet (check_performance_hotspots env)
  /\ quiet (optimize_rust_builds env read_manifest).
Proof.
  split; [apply code_quality_quiet |]. split; [apply binary_size_quiet |].
  split; [apply hotspots_quiet | apply rust_builds_quiet].
Qed.

Lemma picked_log_lines {X} (sel : output -> option X) lines :
  (forall s, sel (Text s) = None) -> picked sel (map Text lines) = [].
Proof.
  intros H. induction lines as [| l lines IH]; [reflexivity |].
  unfold picked in *. cbn [map flat_map]. now rewrite H, IH.
Qed.

Lemma binary_size_returns env w :
  sizes_render env -> fst (analyze_binary_size env w) = Ok tt.
Proof.
  intros Hs. unfold sizes_render in Hs.
  destruct (kernel_stat env) as [size |] eqn:Hk;
    [| unfold analyze_binary_size; now rewrite Hk].
  destruct (Hs size eq_refl) as (Hsize & Hdump).
  destruct (run_command env ["objdump"; "-h"; full (kernel_path env)])
    as [[success out] err] eqn:Hrun.
  destruct (Num.int_div_1024 (Z.of_N size)) as [x |] eqn:E;
    [| now apply file_size_is_printable in Hsize].
  assert (Hw : exists w2, analyze_binary_size env w
                          = when success (_analyze_elf_sections out) w2).
  { unfold analyze_binary_size. rewrite Hk, Hrun, E.
    destruct (10 * 1024 * 1024 <? size)%N; eexists; reflexivity. }
  destruct Hw as (w2 & ->).
  destruct success; [| reflexivity]. cbn [when].
  destruct (section_loop (large_sections out) w2)
    as (done & rest & new & Hd & _ & _ & _ & [(Hv & _) | (_ & s & rest' & -> & Hn)]).
  - exact Hv.
  - specialize (Hdump out err eq_refl). rewrite Hd in Hdump.
    apply Forall_app in Hdump. destruct Hdump as (_ & Hr).
    inversion Hr; subst. contradiction.
Qed.

(** The report the three analyses leave from a fresh one, and what they
    have printed by then. *)
Lemma scan_of_fresh env time :
  sizes_render env ->
  let w := snd (scan env (fresh time)) in
  fst (scan env (fresh time)) = Ok tt
  /\ performance_issues (report w) = tree_findings env Rules.performance "medium"
  /\ security_issues (report w) = tree_findings env Rules.security "high"
  /\ code_issues (report w) = tree_findings env Rules.quality "low"
  /\ printable (report w)
  /\ exists lines, stdout w = map Text lines.
Proof.
  intros Hs. cbv zeta. unfold scan.
  destruct (evolves_run _ _ (fresh time) (analyze_code_quality_evolves env))
    as (Hv1 & Hr1 & _).
  rewrite (bind_ok _ _ _ Hv1).
  set (w1 := snd (analyze_code_quality env (fresh time))) in *.
  pose proof (binary_size_returns env w1 Hs) as Hv2.
  rewrite (bind_ok _ _ _ Hv2).
  set (w2 := snd (analyze_binary_size env w1)) in *.
  destruct (hotspots_suggest env w2) as (Hv3 & new & Hr3 & _).
  set (w3 := snd (check_performance_hotspots env w2)) in *.
  assert (H2 : performance_issues (report w2) = performance_issues (report w1)
               /\ security_issues (report w2) = security_issues (report w1)
               /\ code_issues (report w2) = code_issues (report w1)).
  { refine (binary_size_preserves
              (fun r => performance_issues r = performance_issues (report w1)
                        /\ security_issues r = security_issues (report w1)
                        /\ code_issues r = code_issues (report w1))
              _ _ env w1 _); auto. }
  destruct H2 as (Hp & Hsec & Hq).
  split; [exact Hv3 |]. rewrite Hr3. cbn [suggest performance_issues
    security_issues code_issues]. rewrite Hp, Hsec, Hq, Hr1.
  split; [reflexivity |]. split; [reflexivity |]. split; [reflexivity |].
  split.
  - rewrite <- Hr3. apply (reachable_printable env).
    + intros size Hk. now destruct (Hs size Hk).
    + apply reach_hotspots, reach_binary_size, reach_code_quality, reach_fresh.
  - destruct (code_quality_quiet env (fresh time)) as (l1 & H1).
    destruct (binary_size_quiet env w1) as (l2 & H2).
    destruct (hotspots_quiet env w2) as (l3 & H3).
    exists (l1 ++ l2 ++ l3). fold w1 in H1. fold w2 in H2. fold w3 in H3.
    rewrite H3, H2, H1. cbn [fresh stdout app]. now rewrite !map_app, app_assoc.
Qed.

(** X20. A whole analysis run. In a tree whose kernel image and large
    sections have sizes that can be rendered, the run that [main] makes for
    the action analyze, from a new optimizer, returns, and in all it prints
    there is exactly one verdict. The verdict is the needs-attention one
    exactly when a security rule matches a line of a readable source file,
    and the excellent one exactly when no rule of the three tables matches
    any; what the binary analysis and the hotspot sweep suggest has no part
    in it. *)
Theorem analysis_run_ends_with_the_verdict env time :
  sizes_render env ->
  let w := snd (main_analyze env (fresh time)) in
  fst (main_analyze env (fresh time)) = Ok tt
  /\ exists v,
       picked verdict_in (stdout w) = [v]
       /\ (v = SecurityNeedsAttention
           <-> tree_findings env Rules.security "high" <> [])
       /\ (v = ExcellentCodeQuality <-> clean_tree env).
Proof.
  intros Hs. cbv zeta.
  destruct (scan_of_fresh env time Hs) as (Hv & Hp & Hsec & Hq & Hm & lines & Hl).
  assert (E : main_analyze env (fresh time)
              = generate_optimization_report (snd (scan env (fresh time)))).
  { unfold main_analyze, scan in *. unfold bind in *.
    destruct (analyze_code_quality env (fresh time)) as [[[] | e1] w1];
      [| discriminate].
    destruct (analyze_binary_size env w1) as [[[] | e2] w2]; [| discriminate].
    destruct (check_performance_hotspots env w2) as [[[] | e3] w3];
      [reflexivity | discriminate]. }
  rewrite E. set (w3 := snd (scan env (fresh time))) in *.
  destruct (report_shows_verdict (report w3) Hm w3 eq_refl)
    as (Hok & _ & out & Ho & Hpick).
  split; [exact Hok |]. eexists. split.
  { rewrite Ho, picked_app, Hl, picked_log_lines by reflexivity. exact Hpick. }
  unfold clean_tree. rewrite Hp, Hsec, Hq.
  destruct (tree_findings env Rules.performance "medium"),
    (tree_findings env Rules.security "high"),
    (tree_findings env Rules.quality "low"); cbn;
    split; split; intros H;
    first [ discriminate | congruence | reflexivity | tauto
          | (now repeat split) | (destruct H as (? & ? & ?); discriminate) ].
Qed.

(** An instance of X20: one source file with three performance findings,
    a kernel of 12 MiB and one large section; the run returns and its one
    verdict is that security looks good. *)
Lemma analysis_run_ends_with_the_verdict_witness :
  sizes_render with_kernel
  /\ fst (main_analyze with_kernel (fresh noon)) = Ok tt
  /\ picked verdict_in (stdout (snd (main_analyze with_kernel (fresh noon))))
     = [SecurityLooksGood].
Proof.
  assert (Hs : sizes_render with_kernel).
  { intros size Hk. injection Hk as <-. split; [reflexivity |].
    intros out err Hrun. injection Hrun as <- _.
    vm_compute. repeat constructor. discriminate. }
  split; [exact Hs |].
  destruct (analysis_run_ends_with_the_verdict with_kernel noon Hs)
    as (Hv & v & Hp & Hsec & Hclean).
  split; [exact Hv |]. rewrite Hp. f_equal.
  destruct v; [| reflexivity |].
  - destruct (proj1 Hclean eq_refl) as (Hperf & _). vm_compute in Hperf.
    discriminate.
  - exfalso. apply (proj1 Hsec eq_refl). vm_compute. reflexivity.
Defined.
